(** * Trainer: the round loop of trust-weighted federated distillation

    A shallow embedding of [src/training/trainer.py].  The class [Trainer]
    drives a fixed collection of clients through global epochs (rounds): in
    every round each client optionally receives a distillation target built
    from the soft decisions of the previous round, trains for a number of
    local epochs and is then evaluated; four round-indexed histories and a
    dictionary of trust weights record what the clients returned.

    How the code is read:
    - The clients, torch, numpy, scikit-learn, tqdm and wandb are
      collaborators, kept abstract.  A call on a client is a transition of
      one abstract [World], which holds the private state of all clients (so
      two dictionary keys may well denote the same client object), and it
      returns normally: an exception raised inside a collaborator would
      propagate out of [train] as it is, there being no [try] in the source,
      and such runs are outside the model.  Clients do not reach back into the trainer:
      a list handed to a client is handed over as the value it has at the
      time of the call.
    - Every call made on a client is appended to a trace, with its arguments
      and what it returned, together with what tqdm and wandb were given.
      The claims about which calls are made, how often and with what
      arguments are statements about this trace.
    - The exceptions the orchestration code itself can raise (IndexError and
      KeyError on its histories, the constructor's exception) are modelled
      with an error result; Python's indexing, negative indices included, is
      written out.
    - Accuracies are values of an abstract type of scalars, with numpy's
      mean and the subtraction as collaborators; nothing is assumed of their
      arithmetic.  The toy federation at the end of the definitions runs on
      integers and on IEEE doubles. *)

From Stdlib Require Import ZArith List Lia Ascii Floats.
From stdpp Require Import base option numbers list sorting gmap strings pretty.

Local Open Scope Z_scope.

(** ** Python values *)

(** Modelled from the spec: the enumeration [MetricName] of
    [src/utils/types.py], which is not among the sources.  The spec gives
    its members as Accuracy and BalancedAccuracy ([MetricName.acc] and
    [MetricName.bacc] in [Trainer.__init__]); [other_metric] stands for any
    other value handed to the constructor. *)
Inductive MetricName :=
| acc
| bacc
| other_metric (name : string).

(** The [mode] keyword of [client.test]: ['train'] or ['test']. *)
Inductive Mode := mode_train | mode_test.

Inductive exn :=
| UnknownNameCustomEnumException (m : MetricName)
| IndexError
| KeyError
| AttributeError
| TypeError.

Inductive result (A : Type) :=
| Ok (a : A)
| Raise (e : exn).
Arguments Ok {A} a.
Arguments Raise {A} e.

(** [range(n)] *)
Definition py_range (n : Z) : list Z := seqZ 0 n.

(** The position a list of length [len] gives to index [i]: negative
    indices count from the end, anything else out of range is an
    IndexError. *)
Definition py_resolve (len : nat) (i : Z) : option nat :=
  if 0 <=? i then
    if i <? Z.of_nat len then Some (Z.to_nat i) else None
  else
    if - Z.of_nat len <=? i then Some (Z.to_nat (Z.of_nat len + i)) else None.

(** [l[i]] *)
Definition py_getitem {A} (l : list A) (i : Z) : result A :=
  match py_resolve (length l) i ≫= (l !!.) with
  | Some x => Ok x
  | None => Raise IndexError
  end.

(** [l[i].append(v)] on a list of lists *)
Definition py_getitem_append {A} (l : list (list A)) (i : Z) (v : A)
  : result (list (list A)) :=
  match py_resolve (length l) i with
  | Some k => Ok (alter (λ row, row ++ [v]) k l)
  | None => Raise IndexError
  end.

(** A decimal digit, and a string of decimal digits: what [f'{idx}'] makes
    of a position. *)
Definition is_digit (c : Ascii.ascii) : bool :=
  (48 <=? Ascii.nat_of_ascii c)%nat && (Ascii.nat_of_ascii c <=? 57)%nat.

Fixpoint is_digits (s : string) : Prop :=
  match s with
  | EmptyString => True
  | String c s' => is_digit c = true ∧ is_digits s'
  end.

Section Model.

(** The types of the collaborators' values.  [Client] is the handle stored
    in the [clients] dictionary; the private state of all clients lives in
    [World]. *)
Context {Client Loader SampleSizes Tensor Labels Scalar World : Type}.

(** A slot of [trust_weights_round]: the Python list the round appends to,
    or the tensor [torch.stack] made of it. *)
Inductive tw_slot :=
| TWList (l : list Tensor)
| TWStacked (t : Tensor).

(** The collaborators: the four client capabilities, and the library
    functions the trainer calls on what they return. *)
Record Externals := {
  calculate_soft_decision_target :
    Client → Z → list Tensor → World → (option Tensor * Tensor) * World;
  client_train : Client → Loader → option Tensor → World → World;
  client_test : Client → MetricName → Mode → World → Scalar * World;
  infer_on_refdata : Client → Loader → World → (Tensor * Labels) * World;
  torch_stack : list Tensor → Tensor;
  torch_argmax : Tensor → Labels;
  accuracy_score : Labels → Labels → Scalar;
  balanced_accuracy_score : Labels → Labels → Scalar;
  np_mean : list Scalar → Scalar;
  scalar_sub : Scalar → Scalar → Scalar;
  scalar_zero : Scalar
}.

(** ** The object *)

Record Trainer := mkTrainer {
  clients : list (Z * Client);
  ref_loader : Loader;
  clients_sample_size : SampleSizes;
  pretraining_rounds : Z;
  num_local_epochs : Z;
  metric_name : MetricName;
  metric : Labels → Labels → Scalar;
  soft_decisions : list (list Tensor);
  train_accuracies : list (list Scalar);
  test_accuracies : list (list Scalar);
  ref_accuracies : list (list Scalar);
  trust_weights_round : gmap Z tw_slot
}.

Definition set_soft_decisions (v : list (list Tensor)) (t : Trainer) : Trainer :=
  mkTrainer (clients t) (ref_loader t) (clients_sample_size t)
    (pretraining_rounds t) (num_local_epochs t) (metric_name t) (metric t)
    v (train_accuracies t) (test_accuracies t) (ref_accuracies t)
    (trust_weights_round t).

Definition set_train_accuracies (v : list (list Scalar)) (t : Trainer) : Trainer :=
  mkTrainer (clients t) (ref_loader t) (clients_sample_size t)
    (pretraining_rounds t) (num_local_epochs t) (metric_name t) (metric t)
    (soft_decisions t) v (test_accuracies t) (ref_accuracies t)
    (trust_weights_round t).

Definition set_test_accuracies (v : list (list Scalar)) (t : Trainer) : Trainer :=
  mkTrainer (clients t) (ref_loader t) (clients_sample_size t)
    (pretraining_rounds t) (num_local_epochs t) (metric_name t) (metric t)
    (soft_decisions t) (train_accuracies t) v (ref_accuracies t)
    (trust_weights_round t).

Definition set_ref_accuracies (v : list (list Scalar)) (t : Trainer) : Trainer :=
  mkTrainer (clients t) (ref_loader t) (clients_sample_size t)
    (pretraining_rounds t) (num_local_epochs t) (metric_name t) (metric t)
    (soft_decisions t) (train_accuracies t) (test_accuracies t) v
    (trust_weights_round t).

Definition set_trust_weights_round (v : gmap Z tw_slot) (t : Trainer) : Trainer :=
  mkTrainer (clients t) (ref_loader t) (clients_sample_size t)
    (pretraining_rounds t) (num_local_epochs t) (metric_name t) (metric t)
    (soft_decisions t) (train_accuracies t) (test_accuracies t)
    (ref_accuracies t) v.

(** ** What the collaborators see *)

(** A call on a client, with its arguments and what it returned.  The
    [ref_loader] argument is the trainer's one loader throughout. *)
Inductive call :=
| CalculateSoftDecisionTarget
    (epoch : Z) (prior : list Tensor) (returned : option Tensor * Tensor)
| ClientTrain (target : option Tensor)
| ClientTest (mode : Mode) (returned : Scalar)
| InferOnRefdata (returned : Tensor * Labels).

Inductive wandb_value :=
| WInt (n : Z)
| WScalar (x : Scalar).

(** [ClientCall e idx client c]: during round [e] the client stored under
    key [idx] received call [c].  [SetDescription e a da r dr]: the progress
    bar of round [e] was given the mean test accuracy [a], its delta [da],
    the mean reference accuracy [r] and its delta [dr]. *)
Inductive event :=
| ClientCall (round : Z) (idx : Z) (client : Client) (c : call)
| SetDescription (round : Z) (test_accuracy dtest ref_accuracy dref : Scalar)
| WandbLog (d : gmap string wandb_value).

Record Machine := mkMachine {
  self : Trainer;
  world : World;
  trace : list event
}.

(** ** A state and error monad for the methods *)

Definition M (A : Type) : Type := Machine → result (A * Machine).

#[local] Instance M_ret : MRet M := λ A a s, Ok (a, s).
#[local] Instance M_bind : MBind M := λ A B k m s,
  match m s with
  | Ok (a, s') => k a s'
  | Raise e => Raise e
  end.

Definition lift {A} (r : result A) : M A := λ s,
  match r with
  | Ok a => Ok (a, s)
  | Raise e => Raise e
  end.

Definition get_self : M Trainer := λ s, Ok (self s, s).

Definition modify_self (f : Trainer → Trainer) : M unit := λ s,
  Ok (tt, mkMachine (f (self s)) (world s) (trace s)).

Definition emit (ev : event) : M unit := λ s,
  Ok (tt, mkMachine (self s) (world s) (trace s ++ [ev])).

Definition extern {A} (f : World → A * World) : M A := λ s,
  let '(a, w) := f (world s) in Ok (a, mkMachine (self s) w (trace s)).

(** [for x in l: body(x)] *)
Fixpoint for_each {A} (l : list A) (body : A → M unit) : M unit :=
  match l with
  | [] => mret tt
  | x :: l' => body x ;; for_each l' body
  end.

(** [for x in l: acc = body(x, acc)], for a loop that carries locals *)
Fixpoint for_each_acc {A B} (l : list A) (body : A → B → M B) (b : B) : M B :=
  match l with
  | [] => mret b
  | x :: l' => b' ← body x b; for_each_acc l' body b'
  end.

(** ** The methods *)

Variable K : Externals.

(** [Trainer.__init__] *)
Definition Trainer_init
    (clients : list (Z * Client)) (ref_loader : Loader)
    (clients_sample_size : SampleSizes)
    (pretraining_rounds num_local_epochs : Z) (metric : MetricName)
  : result Trainer :=
  match
    match metric with
    | acc => Ok (accuracy_score K)
    | bacc => Ok (balanced_accuracy_score K)
    | other_metric _ => Raise (UnknownNameCustomEnumException metric)
    end
  with
  | Ok score =>
      Ok (mkTrainer clients ref_loader clients_sample_size pretraining_rounds
            num_local_epochs metric score [] [] [] [] ∅)
  | Raise e => Raise e
  end.

(** [self.trust_weights_round[e].append(tw)] *)
Definition trust_weights_append (d : gmap Z tw_slot) (e : Z) (tw : Tensor)
  : result (gmap Z tw_slot) :=
  match d !! e with
  | None => Raise KeyError
  | Some (TWList l) => Ok (<[e := TWList (l ++ [tw])]> d)
  | Some (TWStacked _) => Raise AttributeError
  end.

(** Lines 60-62: [if len(d[e]) > 0: d[e] = torch.stack(d[e])].  A slot that
    already holds a tensor is handed to [torch.stack], which takes a
    sequence of tensors only. *)
Definition trust_weights_stack (d : gmap Z tw_slot) (e : Z)
  : result (gmap Z tw_slot) :=
  match d !! e with
  | None => Raise KeyError
  | Some (TWList l) =>
      if (0 <? Z.of_nat (length l)) then Ok (<[e := TWStacked (torch_stack K l)]> d)
      else Ok d
  | Some (TWStacked _) => Raise TypeError
  end.

(** [Trainer.__local_epoch] *)
Definition local_epoch (e idx : Z) (client : Client)
    (soft_decision_target : option Tensor) : M unit :=
  t ← get_self;
  extern (λ w, (tt, client_train K client (ref_loader t) soft_decision_target w)) ;;
  emit (ClientCall e idx client (ClientTrain soft_decision_target)).

(** The body of the loop over the clients in [Trainer.__global_epoch]
    (lines 99-119). *)
Definition global_epoch_client (e : Z) (ic : Z * Client) : M unit :=
  let idx := ic.1 in
  let client := ic.2 in
  t ← get_self;
  soft_decision_target ←
    (if e <? pretraining_rounds t then mret None
     else
       prior ← lift (py_getitem (soft_decisions t) (e - 1));
       r ← extern (calculate_soft_decision_target K client e prior);
       emit (ClientCall e idx client (CalculateSoftDecisionTarget e prior r)) ;;
       d ← lift (trust_weights_append (trust_weights_round t) e r.2);
       modify_self (set_trust_weights_round d) ;;
       mret r.1);
  for_each (py_range (num_local_epochs t))
    (λ _, local_epoch e idx client soft_decision_target) ;;
  train_acc ← extern (client_test K client (metric_name t) mode_train);
  emit (ClientCall e idx client (ClientTest mode_train train_acc)) ;;
  t1 ← get_self;
  l ← lift (py_getitem_append (train_accuracies t1) e train_acc);
  modify_self (set_train_accuracies l) ;;
  inferred ← extern (infer_on_refdata K client (ref_loader t));
  emit (ClientCall e idx client (InferOnRefdata inferred)) ;;
  let soft_decision := inferred.1 in
  let ref_y := inferred.2 in
  t2 ← get_self;
  l ← lift (py_getitem_append (soft_decisions t2) e soft_decision);
  modify_self (set_soft_decisions l) ;;
  test_acc ← extern (client_test K client (metric_name t) mode_test);
  emit (ClientCall e idx client (ClientTest mode_test test_acc)) ;;
  t3 ← get_self;
  l ← lift (py_getitem_append (test_accuracies t3) e test_acc);
  modify_self (set_test_accuracies l) ;;
  let ref_pred := torch_argmax K soft_decision in
  let ref_acc := metric t ref_y ref_pred in
  t4 ← get_self;
  l ← lift (py_getitem_append (ref_accuracies t4) e ref_acc);
  modify_self (set_ref_accuracies l).

(** [Trainer.__global_epoch] *)
Definition global_epoch (e : Z) : M unit :=
  t ← get_self;
  for_each (clients t) (global_epoch_client e).

(** The dictionary of per-client values logged to wandb (lines 78-87):
    [for idx, acc in enumerate(l): d[f'{idx}<suffix>'] = acc]. *)
Definition wandb_enumerate (suffix : string) (l : list Scalar)
    (d : gmap string wandb_value) : gmap string wandb_value :=
  foldl (λ d ia, <[pretty (ia.1 : nat) +:+ suffix := WScalar ia.2]> d) d
    (imap (λ i a, (i, a)) l).

(** The body of the loop over the rounds in [Trainer.train] (lines 52-92);
    the locals [prev_test_accuracy] and [prev_ref_accuracy] are carried
    from one iteration to the next. *)
Definition train_round (e : Z) (prev : Scalar * Scalar) : M (Scalar * Scalar) :=
  modify_self (λ t, set_trust_weights_round (<[e := TWList []]> (trust_weights_round t)) t) ;;
  modify_self (λ t, set_soft_decisions (soft_decisions t ++ [[]]) t) ;;
  modify_self (λ t, set_train_accuracies (train_accuracies t ++ [[]]) t) ;;
  modify_self (λ t, set_test_accuracies (test_accuracies t ++ [[]]) t) ;;
  modify_self (λ t, set_ref_accuracies (ref_accuracies t ++ [[]]) t) ;;
  global_epoch e ;;
  t ← get_self;
  d ← lift (trust_weights_stack (trust_weights_round t) e);
  modify_self (set_trust_weights_round d) ;;
  t ← get_self;
  test_row ← lift (py_getitem (test_accuracies t) e);
  ref_row ← lift (py_getitem (ref_accuracies t) e);
  let test_accuracy := np_mean K test_row in
  let ref_accuracy := np_mean K ref_row in
  let prev_test_accuracy := if e =? 0 then test_accuracy else prev.1 in
  let prev_ref_accuracy := if e =? 0 then ref_accuracy else prev.2 in
  emit (SetDescription e
          test_accuracy (scalar_sub K test_accuracy prev_test_accuracy)
          ref_accuracy (scalar_sub K ref_accuracy prev_ref_accuracy)) ;;
  emit (WandbLog (<["global_test_accuracy" := WScalar test_accuracy]>
                    (<["global_ref_accuracy" := WScalar ref_accuracy]> ∅))) ;;
  train_row ← lift (py_getitem (train_accuracies t) e);
  emit (WandbLog
          (wandb_enumerate "_ref_accuracy" ref_row
            (wandb_enumerate "_test_accuracy" test_row
              (wandb_enumerate "_train_accuracy" train_row
                (<["global_epoch" := WInt e]> ∅))))) ;;
  mret (test_accuracy, ref_accuracy).

(** [Trainer.train]: the three histories it returns. *)
Definition train (global_epochs : Z)
  : M (gmap Z tw_slot * list (list Scalar) * list (list Scalar)) :=
  for_each_acc (py_range global_epochs) train_round
    (scalar_zero K, scalar_zero K) ;;
  t ← get_self;
  mret (trust_weights_round t, test_accuracies t, ref_accuracies t).

(** A run: construct the trainer, then call [train] on it, in world [w]. *)
Definition run
    (clients : list (Z * Client)) (ref_loader : Loader)
    (clients_sample_size : SampleSizes)
    (pretraining_rounds num_local_epochs : Z) (metric : MetricName)
    (global_epochs : Z) (w : World)
  : result ((gmap Z tw_slot * list (list Scalar) * list (list Scalar)) * Machine) :=
  match Trainer_init clients ref_loader clients_sample_size pretraining_rounds
          num_local_epochs metric with
  | Ok t => train global_epochs (mkMachine t w [])
  | Raise e => Raise e
  end.

(** ** Observations on a trace *)

(** The part of the object that [train] never assigns. *)
Definition static (t : Trainer) :=
  (clients t, ref_loader t, clients_sample_size t, pretraining_rounds t,
   num_local_epochs t, metric_name t, metric t).

(** The calls of [calculate_soft_decision_target] made during round [e]:
    the dictionary key, the client, and the two arguments. *)
Definition calculate_call (e : Z) (ev : event)
  : option (Z * Client * Z * list Tensor) :=
  match ev with
  | ClientCall r idx c (CalculateSoftDecisionTarget ep prior _) =>
      if r =? e then Some (idx, c, ep, prior) else None
  | _ => None
  end.
Definition calculate_calls (e : Z) (tr : list event) := omap (calculate_call e) tr.

(** What those calls returned. *)
Definition calculate_return (e : Z) (ev : event) : option (option Tensor * Tensor) :=
  match ev with
  | ClientCall r _ _ (CalculateSoftDecisionTarget _ _ ret) =>
      if r =? e then Some ret else None
  | _ => None
  end.
Definition calculate_returns (e : Z) (tr : list event) := omap (calculate_return e) tr.

(** The calls of [client.train] made during round [e], with their target. *)
Definition train_call (e : Z) (ev : event) : option (Z * Client * option Tensor) :=
  match ev with
  | ClientCall r idx c (ClientTrain target) =>
      if r =? e then Some (idx, c, target) else None
  | _ => None
  end.
Definition train_calls (e : Z) (tr : list event) := omap (train_call e) tr.

(** The calls of [infer_on_refdata] made during round [e], with what they
    returned: the soft decision and the reference labels. *)
Definition inferred (e : Z) (ev : event) : option (Z * Client * (Tensor * Labels)) :=
  match ev with
  | ClientCall r idx c (InferOnRefdata ret) =>
      if r =? e then Some (idx, c, ret) else None
  | _ => None
  end.
Definition inferences (e : Z) (tr : list event) := omap (inferred e) tr.

(** The calls of [client.test] made during round [e] in mode [m], with the
    accuracy they returned. *)
Definition tested (e : Z) (m : Mode) (ev : event) : option (Z * Client * Scalar) :=
  match ev with
  | ClientCall r idx c (ClientTest m' ret) =>
      if r =? e then
        match m, m' with
        | mode_train, mode_train | mode_test, mode_test => Some (idx, c, ret)
        | _, _ => None
        end
      else None
  | _ => None
  end.
Definition tests (e : Z) (m : Mode) (tr : list event) := omap (tested e m) tr.

(** The rounds whose progress report was made, in order. *)
Definition completed_round (ev : event) : option Z :=
  match ev with
  | SetDescription r _ _ _ _ => Some r
  | _ => None
  end.
Definition completed_rounds (tr : list event) := omap completed_round tr.

(** What the progress bar was given in round [e]: the mean test accuracy
    and its delta, the mean reference accuracy and its delta. *)
Definition description (e : Z) (ev : event)
  : option (Scalar * Scalar * Scalar * Scalar) :=
  match ev with
  | SetDescription r a da b db => if r =? e then Some (a, da, b, db) else None
  | _ => None
  end.
Definition descriptions (e : Z) (tr : list event) := omap (description e) tr.

(** The round an event belongs to; a wandb record carries none. *)
Definition event_round (ev : event) : option Z :=
  match ev with
  | ClientCall r _ _ _ => Some r
  | SetDescription r _ _ _ _ => Some r
  | WandbLog _ => None
  end.

(** All the calls made on clients during round [e], in order: the
    dictionary key, the client, and the call. *)
Definition client_call (e : Z) (ev : event) : option (Z * Client * call) :=
  match ev with
  | ClientCall r idx c cl => if r =? e then Some (idx, c, cl) else None
  | _ => None
  end.
Definition client_calls (e : Z) (tr : list event) := omap (client_call e) tr.

(** The dictionaries handed to [wandb.log], in order. *)
Definition wandb_log (ev : event) : option (gmap string wandb_value) :=
  match ev with
  | WandbLog d => Some d
  | _ => None
  end.
Definition wandb_logs (tr : list event) := omap wandb_log tr.

(** ** Logs: a run as rounds of turns *)

(** One client's turn in a round, as the calls it consists of: the phase
    gate's call (its [prior] argument and what it returned) if the round
    distils, and the three evaluations. *)
Record turn := mkTurn {
  t_idx : Z;
  t_client : Client;
  t_calc : option (list Tensor * (option Tensor * Tensor));
  t_train_acc : Scalar;
  t_inferred : Tensor * Labels;
  t_test_acc : Scalar
}.

Definition t_target (tn : turn) : option Tensor :=
  match t_calc tn with
  | Some (_, ret) => ret.1
  | None => None
  end.

Definition t_weight (tn : turn) : option Tensor :=
  match t_calc tn with
  | Some (_, ret) => Some ret.2
  | None => None
  end.

Definition turn_events (e n : Z) (tn : turn) : list event :=
  match t_calc tn with
  | Some (prior, ret) =>
      [ClientCall e (t_idx tn) (t_client tn) (CalculateSoftDecisionTarget e prior ret)]
  | None => []
  end ++
  replicate (Z.to_nat n)
    (ClientCall e (t_idx tn) (t_client tn) (ClientTrain (t_target tn))) ++
  [ClientCall e (t_idx tn) (t_client tn) (ClientTest mode_train (t_train_acc tn));
   ClientCall e (t_idx tn) (t_client tn) (InferOnRefdata (t_inferred tn));
   ClientCall e (t_idx tn) (t_client tn) (ClientTest mode_test (t_test_acc tn))].

(** The calls of one client's turn in round [e] with [n] local epochs: the
    phase gate's call if the round distils, the local epochs, and the three
    evaluations, in the order of lines 99-114. *)
Definition turn_calls (e n : Z) (tn : turn) : list (Z * Client * call) :=
  (λ cl, (t_idx tn, t_client tn, cl)) <$>
    (match t_calc tn with
     | Some (prior, ret) => [CalculateSoftDecisionTarget e prior ret]
     | None => []
     end ++
     replicate (Z.to_nat n) (ClientTrain (t_target tn)) ++
     [ClientTest mode_train (t_train_acc tn);
      InferOnRefdata (t_inferred tn);
      ClientTest mode_test (t_test_acc tn)]).

(** A trainer on which round [e] can run: the four histories have a row
    [e], and the round's slot of trust weights is the list [l0]. *)
Definition round_ready (e : Z) (t : Trainer) (l0 : list Tensor) : Prop :=
  0 ≤ e ∧
  e < Z.of_nat (length (soft_decisions t)) ∧
  e < Z.of_nat (length (train_accuracies t)) ∧
  e < Z.of_nat (length (test_accuracies t)) ∧
  e < Z.of_nat (length (ref_accuracies t)) ∧
  trust_weights_round t !! e = Some (TWList l0).

Definition turn_soft_decision (tn : turn) : Tensor := (t_inferred tn).1.

Definition turn_ref_acc (t : Trainer) (tn : turn) : Scalar :=
  metric t (t_inferred tn).2 (torch_argmax K (t_inferred tn).1).

(** What one turn does to a machine on which round [e] can run: the calls
    of [tn] are appended to the trace, and what they returned is appended
    to row [e] of each history. *)
Definition turn_post (e : Z) (l0 : list Tensor) (s s' : Machine) (tn : turn) : Prop :=
  let t := self s in
  let k := Z.to_nat e in
  static (self s') = static t ∧
  trace s' = trace s ++ turn_events e (num_local_epochs t) tn ∧
  soft_decisions (self s')
    = alter (λ row, row ++ [turn_soft_decision tn]) k (soft_decisions t) ∧
  train_accuracies (self s')
    = alter (λ row, row ++ [t_train_acc tn]) k (train_accuracies t) ∧
  test_accuracies (self s')
    = alter (λ row, row ++ [t_test_acc tn]) k (test_accuracies t) ∧
  ref_accuracies (self s')
    = alter (λ row, row ++ [turn_ref_acc t tn]) k (ref_accuracies t) ∧
  trust_weights_round (self s')
    = <[e := TWList (l0 ++ option_list (t_weight tn))]> (trust_weights_round t) ∧
  match t_calc tn with
  | None => e < pretraining_rounds t
  | Some (prior, ret) =>
      pretraining_rounds t ≤ e ∧
      py_getitem (soft_decisions t) (e - 1) = Ok prior
  end.

(** What the loop over the clients does in round [e]: the turns [ts], one
    per client.  The phase gate of the turn at position [i] reads
    [soft_decisions[e - 1]] after [i] clients have appended to row [e]. *)
Definition round_post (e : Z) (l0 : list Tensor) (s s' : Machine)
    (ts : list turn) : Prop :=
  let t := self s in
  let k := Z.to_nat e in
  static (self s') = static t ∧
  trace s' = trace s ++ concat (turn_events e (num_local_epochs t) <$> ts) ∧
  soft_decisions (self s')
    = alter (λ row, row ++ (turn_soft_decision <$> ts)) k (soft_decisions t) ∧
  train_accuracies (self s')
    = alter (λ row, row ++ (t_train_acc <$> ts)) k (train_accuracies t) ∧
  test_accuracies (self s')
    = alter (λ row, row ++ (t_test_acc <$> ts)) k (test_accuracies t) ∧
  ref_accuracies (self s')
    = alter (λ row, row ++ (turn_ref_acc t <$> ts)) k (ref_accuracies t) ∧
  trust_weights_round (self s')
    = <[e := TWList (l0 ++ omap t_weight ts)]> (trust_weights_round t) ∧
  ∀ (i : nat) (tn : turn), ts !! i = Some tn →
    match t_calc tn with
    | None => e < pretraining_rounds t
    | Some (prior, ret) =>
        pretraining_rounds t ≤ e ∧
        py_getitem
          (alter (λ row, row ++ take i (turn_soft_decision <$> ts)) k
             (soft_decisions t)) (e - 1) = Ok prior
    end.

(** The slot of trust weights a round of turns [ts] leaves behind. *)
Definition slot_of (ts : list turn) : tw_slot :=
  match omap t_weight ts with
  | [] => TWList []
  | ws => TWStacked (torch_stack K ws)
  end.

Definition mean_test (ts : list turn) : Scalar := np_mean K (t_test_acc <$> ts).
Definition mean_ref (t : Trainer) (ts : list turn) : Scalar :=
  np_mean K (turn_ref_acc t <$> ts).

(** The two records a round hands to wandb. *)
Definition wandb_events (t : Trainer) (e : Z) (ts : list turn) : list event :=
  [WandbLog (<["global_test_accuracy" := WScalar (mean_test ts)]>
               (<["global_ref_accuracy" := WScalar (mean_ref t ts)]> ∅));
   WandbLog
     (wandb_enumerate "_ref_accuracy" (turn_ref_acc t <$> ts)
       (wandb_enumerate "_test_accuracy" (t_test_acc <$> ts)
         (wandb_enumerate "_train_accuracy" (t_train_acc <$> ts)
           (<["global_epoch" := WInt e]> ∅))))].

(** The baseline the deltas of round [r] are taken from: the round's own
    means in round 0, the means of the round before otherwise. *)
Definition baseline (t : Trainer) (logs : list (list turn)) (r : nat) (ts : list turn)
  : Scalar * Scalar :=
  match r with
  | O => (mean_test ts, mean_ref t ts)
  | S r' => (mean_test (default [] (logs !! r')), mean_ref t (default [] (logs !! r')))
  end.

(** All the events of round [r]. *)
Definition round_events (t : Trainer) (logs : list (list turn)) (r : nat)
    (ts : list turn) : list event :=
  concat (turn_events (Z.of_nat r) (num_local_epochs t) <$> ts) ++
  SetDescription (Z.of_nat r)
    (mean_test ts) (scalar_sub K (mean_test ts) (baseline t logs r ts).1)
    (mean_ref t ts) (scalar_sub K (mean_ref t ts) (baseline t logs r ts).2)
  :: wandb_events t (Z.of_nat r) ts.

(** The [prior] argument the code hands to a phase gate's call in round [r],
    at position [i] of the round: row [r - 1] of the soft decisions, which
    in round 0 is index [-1], the row of round 0 itself, as far as it has
    been filled. *)
Definition prior_of (logs : list (list turn)) (r i : nat) (ts : list turn)
  : list Tensor :=
  match r with
  | O => take i (turn_soft_decision <$> ts)
  | S r' => turn_soft_decision <$> default [] (logs !! r')
  end.

(** Each turn of each round went through the phase gate as the code
    prescribes. *)
Definition gated (t : Trainer) (logs : list (list turn)) : Prop :=
  ∀ (r : nat) (ts : list turn), logs !! r = Some ts →
    (λ tn, (t_idx tn, t_client tn)) <$> ts = clients t ∧
    ∀ (i : nat) (tn : turn), ts !! i = Some tn →
      match t_calc tn with
      | None => Z.of_nat r < pretraining_rounds t
      | Some (prior, ret) =>
          pretraining_rounds t ≤ Z.of_nat r ∧ prior = prior_of logs r i ts
      end.

(** The trust weights dictionary after the rounds [logs]. *)
Definition slots_of (logs : list (list turn)) (r : Z) : option tw_slot :=
  if 0 <=? r then slot_of <$> logs !! Z.to_nat r else None.

(** The machine [s'] is what the rounds [logs] make of the machine [s]
    whose histories are empty. *)
Definition logged (s s' : Machine) (logs : list (list turn)) : Prop :=
  let t := self s in
  static (self s') = static t ∧
  trace s' = trace s ++ concat (imap (round_events t logs) logs) ∧
  soft_decisions (self s') = (λ ts : list turn, turn_soft_decision <$> ts) <$> logs ∧
  train_accuracies (self s') = (λ ts : list turn, t_train_acc <$> ts) <$> logs ∧
  test_accuracies (self s') = (λ ts : list turn, t_test_acc <$> ts) <$> logs ∧
  ref_accuracies (self s') = (λ ts : list turn, turn_ref_acc t <$> ts) <$> logs ∧
  (∀ r, trust_weights_round (self s') !! r = slots_of logs r) ∧
  gated t logs.

(** The locals [prev_test_accuracy] and [prev_ref_accuracy] after the
    rounds [logs]. *)
Definition prev_of (t : Trainer) (logs : list (list turn)) : Scalar * Scalar :=
  match last logs with
  | Some ts => (mean_test ts, mean_ref t ts)
  | None => (scalar_zero K, scalar_zero K)
  end.

(** ** A trainer that is trained again *)

(** The rows [old] of a history after a call of [train] whose round [r]
    appended one row and then the values [vs !! r] to the row at index
    [r]. *)
Definition merge_rows {A} (old vs : list (list A)) : list (list A) :=
  (λ i, default [] (old !! i) ++ default [] (vs !! i))
    <$> seq 0 (length old + length vs).

(** The [prior] argument of a phase gate's call in round [r], at position
    [i] of the round, on a trainer that held the soft decisions [old] when
    [train] was called. *)
Definition prior_from (old : list (list Tensor)) (logs : list (list turn))
    (r i : nat) (ts : list turn) : list Tensor :=
  match r with
  | O => match old with
         | [] => take i (turn_soft_decision <$> ts)
         | _ :: _ => []
         end
  | S r' => default [] (old !! r') ++ (turn_soft_decision <$> default [] (logs !! r'))
  end.

(** The rounds [logs] of a call of [train], for the round [e]. *)
Definition round_of (logs : list (list turn)) (e : Z) : option (list turn) :=
  if 0 <=? e then logs !! Z.to_nat e else None.

(** The machine [s'] is what a call of [train] running the rounds [logs]
    makes of the machine [s], whatever [s] holds. *)
Definition resumed (s s' : Machine) (logs : list (list turn)) : Prop :=
  let t := self s in
  static (self s') = static t ∧
  (∃ evs,
     trace s' = trace s ++ evs ∧
     ∀ e, client_calls e evs
          = match round_of logs e with
            | Some ts => concat (turn_calls e (num_local_epochs t) <$> ts)
            | None => []
            end) ∧
  soft_decisions (self s')
  = merge_rows (soft_decisions t) ((λ ts : list turn, turn_soft_decision <$> ts) <$> logs) ∧
  train_accuracies (self s')
  = merge_rows (train_accuracies t) ((λ ts : list turn, t_train_acc <$> ts) <$> logs) ∧
  test_accuracies (self s')
  = merge_rows (test_accuracies t) ((λ ts : list turn, t_test_acc <$> ts) <$> logs) ∧
  ref_accuracies (self s')
  = merge_rows (ref_accuracies t) ((λ ts : list turn, turn_ref_acc t <$> ts) <$> logs) ∧
  (∀ e, trust_weights_round (self s') !! e
        = match round_of logs e with
          | Some ts => Some (slot_of ts)
          | None => trust_weights_round t !! e
          end) ∧
  ∀ (r : nat) (ts : list turn), logs !! r = Some ts →
    (λ tn, (t_idx tn, t_client tn)) <$> ts = clients t ∧
    ∀ (i : nat) (tn : turn), ts !! i = Some tn →
      match t_calc tn with
      | None => Z.of_nat r < pretraining_rounds t
      | Some (prior, ret) =>
          pretraining_rounds t ≤ Z.of_nat r ∧
          prior = prior_from (soft_decisions t) logs r i ts
      end.

(** The histories of [t] have [j] rows each. *)
Definition histories_length (j : nat) (t : Trainer) : Prop :=
  length (soft_decisions t) = j ∧ length (train_accuracies t) = j ∧
  length (test_accuracies t) = j ∧ length (ref_accuracies t) = j.

(** A trainer as [__init__] leaves it. *)
Definition fresh (t : Trainer) : Prop :=
  soft_decisions t = [] ∧ train_accuracies t = [] ∧
  test_accuracies t = [] ∧ ref_accuracies t = [] ∧
  trust_weights_round t = ∅.

End Model.

(** ** Two runs side by side *)

Section Observing.

Context {Client Loader SampleSizes Tensor Labels Scalar World : Type}.

#[local] Abbreviation Externals := (@Externals Client Loader Tensor Labels Scalar World).
#[local] Abbreviation Trainer := (@Trainer Client Loader SampleSizes Tensor Labels Scalar).
#[local] Abbreviation Machine := (@Machine Client Loader SampleSizes Tensor Labels Scalar World).
#[local] Abbreviation event := (@event Client Tensor Labels Scalar).

(** What can be seen of a call once it is over: what it returned, the world
    it left and the calls it made, or the exception. *)
Definition observe {A} (r : result (A * Machine)) : result (A * World * list event) :=
  match r with
  | Ok (a, s) => Ok (a, world s, trace s)
  | Raise e => Raise e
  end.

(** The calls a run has made, if it returned. *)
Definition trace_of {A} (r : result (A * Machine)) : option (list event) :=
  match r with
  | Ok (_, s) => Some (trace s)
  | Raise _ => None
  end.

(** The slot of round [e] in the trust weights a run has returned. *)
Definition slot_after
    (r : result ((gmap Z (@tw_slot Tensor) * list (list Scalar) * list (list Scalar))
                 * Machine))
    (e : Z) : option (@tw_slot Tensor) :=
  match r with
  | Ok ((tw, _, _), _) => tw !! e
  | Raise _ => None
  end.

End Observing.

(** ** A toy federation, to run the model on

    Client handles are numbers, tensors are lists of integers, the world
    counts the local epochs trained so far. *)
Module Toy.

Definition K : @Externals Z unit (list Z) Z Z Z := {|
  calculate_soft_decision_target c e prior w :=
    ((Some (concat prior), [c; e; Z.of_nat (length prior)]), w);
  client_train c _ _ w := w + 1;
  client_test c _ mode w :=
    (match mode with mode_train => c + w | mode_test => c + 2 * w end, w);
  infer_on_refdata c _ w := (([10 * c + w], c), w);
  torch_stack l := concat l;
  torch_argmax t := hd 0 t;
  accuracy_score y p := y + p;
  balanced_accuracy_score y p := y - p;
  np_mean l := foldr Z.add 0 l / Z.of_nat (length l);
  scalar_sub := Z.sub;
  scalar_zero := 0
|}.

(** The same federation on IEEE doubles.  The mean is the sum divided by
    the count, as numpy computes it: [nan] for the empty list. *)
Definition double (z : Z) : float := of_uint63 (Uint63.of_Z z).

Definition KF : @Externals Z unit (list Z) Z float Z := {|
  calculate_soft_decision_target c e prior w :=
    ((Some (concat prior), [c; e; Z.of_nat (length prior)]), w);
  client_train c _ _ w := w + 1;
  client_test c _ mode w :=
    ((double (match mode with mode_train => c + w | mode_test => c + 2 * w end)
      / 64)%float, w);
  infer_on_refdata c _ w := (([10 * c + w], c), w);
  torch_stack l := concat l;
  torch_argmax t := hd 0 t;
  accuracy_score y p := (double (y + p) / 128)%float;
  balanced_accuracy_score y p := (double (Z.abs (y - p)) / 128)%float;
  np_mean l := (foldr PrimFloat.add 0 l / foldr (λ _ k, k + 1) 0 l)%float;
  scalar_sub := PrimFloat.sub;
  scalar_zero := 0%float
|}.

Definition two_clients : list (Z * Z) := [(0, 7); (1, 9)].

(** A machine whose trainer has been trained before: one row in each
    history and a stacked slot of trust weights. *)
Definition trained : @Machine Z unit unit (list Z) Z Z Z :=
  mkMachine
    (mkTrainer two_clients tt tt 0 1 acc (accuracy_score K)
       [[[5]; [6]]] [[1; 2]] [[3; 4]] [[7; 8]] {[0 := TWStacked [9]]})
    0 [].

End Toy.

(** * Facts *)

(** ** Python indexing *)

Lemma py_resolve_nonneg (len : nat) (e : Z) :
  0 ≤ e → e < Z.of_nat len → py_resolve len e = Some (Z.to_nat e).
Proof.
  intros H0 H1. unfold py_resolve.
  destruct (Z.leb_spec 0 e); [|lia].
  destruct (Z.ltb_spec e (Z.of_nat len)); [done|lia].
Qed.

Lemma py_resolve_pred (len : nat) (e : Z) :
  1 ≤ e → e < Z.of_nat len → py_resolve len (e - 1) = Some (Z.to_nat (e - 1)).
Proof. intros. apply py_resolve_nonneg; lia. Qed.

(** Index [-1] is the last position. *)
Lemma py_resolve_minus_one (len : nat) :
  (0 < len)%nat → py_resolve len (0 - 1) = Some (pred len).
Proof.
  intros H. unfold py_resolve.
  change (0 <=? 0 - 1) with false. cbv iota.
  destruct (Z.leb_spec (- Z.of_nat len) (0 - 1)); [|lia].
  f_equal. lia.
Qed.

Lemma py_resolve_lt (len : nat) (i : Z) (k : nat) :
  py_resolve len i = Some k → (k < len)%nat.
Proof.
  unfold py_resolve.
  destruct (Z.leb_spec 0 i), (Z.ltb_spec i (Z.of_nat len)),
    (Z.leb_spec (- Z.of_nat len) i); intros [= <-]; lia.
Qed.

Lemma py_getitem_lookup {A} (l : list A) (i : Z) (k : nat) (x : A) :
  py_resolve (length l) i = Some k → l !! k = Some x → py_getitem l i = Ok x.
Proof. intros Hk Hx. unfold py_getitem. rewrite Hk. simpl. by rewrite Hx. Qed.

Lemma py_getitem_append_nonneg {A} (l : list (list A)) (e : Z) (v : A) :
  0 ≤ e → e < Z.of_nat (length l) →
  py_getitem_append l e v = Ok (alter (λ row, row ++ [v]) (Z.to_nat e) l).
Proof. intros. unfold py_getitem_append. by rewrite py_resolve_nonneg. Qed.

(** ** Lists *)

Lemma alter_app_twice {A} (k : nat) (a b : list A) (l : list (list A)) :
  alter (λ row, row ++ b) k (alter (λ row, row ++ a) k l)
  = alter (λ row, row ++ (a ++ b)) k l.
Proof.
  rewrite list_alter_alter_eq. apply list_alter_ext; [|done].
  intros row _. simpl. by rewrite app_assoc.
Qed.

Lemma alter_app_nil {A} (k : nat) (l : list (list A)) :
  alter (λ row, row ++ []) k l = l.
Proof. apply list_alter_id. intros row. apply app_nil_r. Qed.

Lemma omap_replicate {A B} (f : A → option B) (n : nat) (x : A) :
  omap f (replicate n x) =
  match f x with Some y => replicate n y | None => [] end.
Proof.
  induction n as [|n IH]; [by destruct (f x)|].
  change (replicate (S n) x) with (x :: replicate n x).
  change (omap f (x :: replicate n x))
    with (match f x with Some y => y :: omap f (replicate n x)
          | None => omap f (replicate n x) end).
  rewrite IH. by destruct (f x).
Qed.

(** ** One client's turn *)

Section Facts.

Context {Client Loader SampleSizes Tensor Labels Scalar World : Type}.
Variable K : @Externals Client Loader Tensor Labels Scalar World.

#[local] Abbreviation Trainer := (@Trainer Client Loader SampleSizes Tensor Labels Scalar).
#[local] Abbreviation Machine := (@Machine Client Loader SampleSizes Tensor Labels Scalar World).
#[local] Abbreviation event := (@event Client Tensor Labels Scalar).
#[local] Abbreviation turn := (@turn Client Tensor Labels Scalar).

(** The local epochs of a turn train the client on one and the same
    target, once per element of the range. *)
Lemma local_epochs_spec (e idx : Z) (c : Client) (target : option Tensor)
    (l : list Z) (s : Machine) :
  ∃ w, for_each l (λ _, local_epoch K e idx c target) s
       = Ok (tt, mkMachine (self s) w
                   (trace s ++ replicate (length l)
                      (ClientCall e idx c (ClientTrain target)))).
Proof.
  revert s. induction l as [|x l IH]; intros s.
  - exists (world s). simpl. rewrite app_nil_r. by destruct s.
  - simpl. unfold mbind, M_bind, local_epoch at 1, get_self, extern, emit. simpl.
    destruct (IH (mkMachine (self s)
                    (client_train K c (ref_loader (self s)) target (world s))
                    (trace s ++ [ClientCall e idx c (ClientTrain target)])))
      as [w Hw].
    exists w. rewrite Hw. simpl. by rewrite <- app_assoc.
Qed.


Lemma py_getitem_pred_ok {A} (l : list A) (e : Z) :
  0 ≤ e → e < Z.of_nat (length l) → ∃ x, py_getitem l (e - 1) = Ok x.
Proof.
  intros H0 H1.
  assert (∃ k, py_resolve (length l) (e - 1) = Some k) as [k Hk].
  { destruct (decide (e = 0)) as [->|].
    - eexists. apply py_resolve_minus_one. lia.
    - eexists. apply py_resolve_pred; lia. }
  destruct (lookup_lt_is_Some_2 l k) as [x Hx].
  { by eapply py_resolve_lt. }
  exists x. by eapply py_getitem_lookup.
Qed.

Lemma global_epoch_client_spec (e : Z) (ic : Z * Client) (l0 : list Tensor)
    (s : Machine) :
  round_ready e (self s) l0 →
  ∃ tn s',
    global_epoch_client K e ic s = Ok (tt, s') ∧
    (t_idx tn, t_client tn) = ic ∧
    turn_post K e l0 s s' tn.
Proof.
  intros (H0 & Hsd & Htr & Hte & Hre & Hslot).
  destruct ic as [idx c]. destruct s as [t w tr]. simpl in *.
  unfold global_epoch_client, mbind, M_bind, get_self. simpl.
  destruct (e <? pretraining_rounds t) eqn:Hgate.
  - (* local only *)
    apply Z.ltb_lt in Hgate.
    unfold mret, M_ret.
    destruct (local_epochs_spec e idx c None (py_range (num_local_epochs t))
                (mkMachine t w tr)) as [w1 ->].
    unfold extern, emit, lift, modify_self. simpl.
    destruct (client_test K c (metric_name t) mode_train w1) as [a w2] eqn:Ha.
    simpl. rewrite (py_getitem_append_nonneg _ _ _ H0 Htr). simpl.
    destruct (infer_on_refdata K c (ref_loader t) w2) as [r w3] eqn:Hr.
    simpl. rewrite (py_getitem_append_nonneg _ _ _ H0 Hsd). simpl.
    destruct (client_test K c (metric_name t) mode_test w3) as [b w4] eqn:Hb.
    simpl. rewrite (py_getitem_append_nonneg _ _ _ H0 Hte). simpl.
    rewrite (py_getitem_append_nonneg _ _ _ H0 Hre). simpl.
    eexists (mkTurn idx c None a r b), _. split; [reflexivity|].
    split; [done|].
    unfold turn_post, turn_events, t_target, t_weight, static, py_range; simpl.
    rewrite app_nil_r, (insert_id _ _ _ Hslot), length_seqZ, <- !app_assoc.
    by repeat split.
  - (* distillation *)
    apply Z.ltb_ge in Hgate.
    destruct (py_getitem_pred_ok (soft_decisions t) e H0 Hsd) as [prior Hprior].
    unfold lift, extern, emit, modify_self, mret, M_ret, trust_weights_append.
    rewrite Hprior. simpl.
    destruct (calculate_soft_decision_target K c e prior w) as [ret w0] eqn:Hret.
    simpl. rewrite Hslot. simpl.
    match goal with |- context [for_each _ _ ?s0] =>
      destruct (local_epochs_spec e idx c ret.1 (py_range (num_local_epochs t)) s0)
        as [w1 ->]
    end.
    simpl.
    destruct (client_test K c (metric_name t) mode_train w1) as [a w2] eqn:Ha.
    simpl. rewrite (py_getitem_append_nonneg _ _ _ H0 Htr). simpl.
    destruct (infer_on_refdata K c (ref_loader t) w2) as [r w3] eqn:Hr.
    simpl. rewrite (py_getitem_append_nonneg _ _ _ H0 Hsd). simpl.
    destruct (client_test K c (metric_name t) mode_test w3) as [b w4] eqn:Hb.
    simpl. rewrite (py_getitem_append_nonneg _ _ _ H0 Hte). simpl.
    rewrite (py_getitem_append_nonneg _ _ _ H0 Hre). simpl.
    eexists (mkTurn idx c (Some (prior, ret)) a r b), _. split; [reflexivity|].
    split; [done|].
    unfold turn_post, turn_events, t_target, t_weight, static, py_range; simpl.
    rewrite length_seqZ, <- !app_assoc.
    by repeat split.
Qed.


(** ** One round *)

Lemma static_inv (t t' : Trainer) :
  static t' = static t →
  clients t' = clients t ∧ ref_loader t' = ref_loader t ∧
  pretraining_rounds t' = pretraining_rounds t ∧
  num_local_epochs t' = num_local_epochs t ∧
  metric_name t' = metric_name t ∧ metric t' = metric t.
Proof. unfold static. intros [= -> -> _ -> -> -> ->]. done. Qed.

Lemma turn_post_ready (e : Z) (l0 : list Tensor) (s s' : Machine) (tn : turn) :
  round_ready e (self s) l0 → turn_post K e l0 s s' tn →
  round_ready e (self s') (l0 ++ option_list (t_weight tn)).
Proof.
  intros (H0 & Hsd & Htr & Hte & Hre & Hslot)
    (_ & _ & E1 & E2 & E3 & E4 & E5 & _).
  unfold round_ready.
  rewrite E1, E2, E3, E4, E5, !length_alter, lookup_insert_eq. done.
Qed.

Lemma for_each_clients_spec (e : Z) (cs : list (Z * Client)) (l0 : list Tensor)
    (s : Machine) :
  round_ready e (self s) l0 →
  ∃ ts s',
    for_each cs (global_epoch_client K e) s = Ok (tt, s') ∧
    (λ tn, (t_idx tn, t_client tn)) <$> ts = cs ∧
    round_post K e l0 s s' ts.
Proof.
  revert l0 s. induction cs as [|ic cs IH]; intros l0 s Hready.
  - exists [], s. split; [done|]. split; [done|].
    destruct Hready as (_ & _ & _ & _ & _ & Hslot).
    unfold round_post. simpl.
    rewrite !app_nil_r, !alter_app_nil, (insert_id _ _ _ Hslot).
    repeat split; done.
  - destruct (global_epoch_client_spec e ic l0 s Hready)
      as (tn & s1 & Hrun1 & Hic & Hpost1).
    pose proof (turn_post_ready _ _ _ _ _ Hready Hpost1) as Hready1.
    destruct (IH _ s1 Hready1) as (ts & s' & Hrun & Hcs & Hpost).
    exists (tn :: ts), s'. split.
    { simpl. unfold mbind, M_bind. by rewrite Hrun1. }
    split. { rewrite fmap_cons. by rewrite Hic, Hcs. }
    destruct Hpost1 as (Hst1 & Htr1 & Hsd1 & Hta1 & Hte1 & Hra1 & Htw1 & Hgate1).
    destruct Hpost as (Hst & Htr & Hsd & Hta & Hte & Hra & Htw & Hgate).
    destruct (static_inv _ _ Hst1) as (_ & _ & HP & Hn & _ & Hm).
    unfold round_post.
    rewrite Hst, Htr, Hsd, Hta, Hte, Hra, Htw.
    rewrite Htr1, Hsd1, Hta1, Hte1, Hra1, Htw1, Hn.
    rewrite !alter_app_twice, insert_insert_eq, <- !app_assoc.
    split; [done|]. split; [done|]. split; [done|]. split; [done|].
    split; [done|].
    split. { unfold turn_ref_acc. by rewrite Hm. }
    split. { simpl. by destruct (t_weight tn). }
    intros [|i] tn' Hi; simpl in Hi.
    + injection Hi as <-. simpl. rewrite alter_app_nil. exact Hgate1.
    + specialize (Hgate i tn' Hi). destruct (t_calc tn') as [[prior ret]|].
      * rewrite HP, Hsd1, alter_app_twice in Hgate. exact Hgate.
      * by rewrite HP in Hgate.
Qed.


(** ** One iteration of [train] *)

Lemma alter_snoc {A} (f : A → A) (l : list A) (x : A) (j : nat) :
  length l = j → alter f j (l ++ [x]) = l ++ [f x].
Proof.
  intros <-. replace (length l) with (length l + 0)%nat by lia.
  by rewrite alter_app_r.
Qed.

Lemma py_getitem_snoc {A} (l : list A) (x : A) (j : nat) :
  length l = j → py_getitem (l ++ [x]) (Z.of_nat j) = Ok x.
Proof.
  intros <-. apply py_getitem_lookup with (k := length l).
  - rewrite py_resolve_nonneg, Nat2Z.id; [done|lia|].
    rewrite length_app. simpl. lia.
  - by rewrite lookup_app_r, Nat.sub_diag.
Qed.

Lemma train_round_spec (j : nat) (prev : Scalar * Scalar) (s : Machine) :
  histories_length j (self s) →
  let t := self s in
  let e := Z.of_nat j in
  ∃ ts s',
    train_round K e prev s = Ok ((mean_test K ts, mean_ref K t ts), s') ∧
    (λ tn, (t_idx tn, t_client tn)) <$> ts = clients t ∧
    static (self s') = static t ∧
    trace s' = trace s ++
      concat (turn_events e (num_local_epochs t) <$> ts) ++
      SetDescription e
        (mean_test K ts)
        (scalar_sub K (mean_test K ts) (if e =? 0 then mean_test K ts else prev.1))
        (mean_ref K t ts)
        (scalar_sub K (mean_ref K t ts) (if e =? 0 then mean_ref K t ts else prev.2))
      :: wandb_events K t e ts ∧
    soft_decisions (self s') = soft_decisions t ++ [turn_soft_decision <$> ts] ∧
    train_accuracies (self s') = train_accuracies t ++ [t_train_acc <$> ts] ∧
    test_accuracies (self s') = test_accuracies t ++ [t_test_acc <$> ts] ∧
    ref_accuracies (self s') = ref_accuracies t ++ [turn_ref_acc K t <$> ts] ∧
    trust_weights_round (self s') = <[e := slot_of K ts]> (trust_weights_round t) ∧
    ∀ (i : nat) (tn : turn), ts !! i = Some tn →
      match t_calc tn with
      | None => e < pretraining_rounds t
      | Some (prior, ret) =>
          pretraining_rounds t ≤ e ∧
          py_getitem (soft_decisions t ++ [take i (turn_soft_decision <$> ts)])
            (e - 1) = Ok prior
      end.
Proof.
  intros (Lsd & Lta & Lte & Lra). destruct s as [t w tr]. simpl in *.
  unfold train_round, mbind, M_bind, modify_self, global_epoch, get_self. simpl.
  unfold mbind, M_bind. simpl.
  match goal with |- context [for_each ?l ?f ?s0] =>
    destruct (for_each_clients_spec (Z.of_nat j) l [] s0)
      as (ts & [t1 w1 tr1] & Hrun & Hcs & Hpost)
  end.
  { unfold round_ready. simpl. rewrite !length_app, lookup_insert_eq. simpl.
    repeat split; lia || done. }
  rewrite Hrun.
  destruct Hpost as (Hst & Htr & Hsd & Hta & Hte & Hra & Htw & Hgate).
  unfold turn_ref_acc, mean_ref in *. simpl in *. rewrite Nat2Z.id in *.
  rewrite (alter_snoc _ _ _ _ Lsd) in Hsd. rewrite (alter_snoc _ _ _ _ Lta) in Hta.
  rewrite (alter_snoc _ _ _ _ Lte) in Hte. rewrite (alter_snoc _ _ _ _ Lra) in Hra.
  simpl in Hsd, Hta, Hte, Hra. rewrite insert_insert_eq in Htw.
  exists ts.
  unfold lift, trust_weights_stack, emit, mret, M_ret. rewrite Htw, lookup_insert_eq.
  assert (Hslot :
    (if 0 <? Z.of_nat (length (omap t_weight ts))
     then Ok (<[Z.of_nat j := TWStacked (torch_stack K (omap t_weight ts))]>
                (<[Z.of_nat j := TWList (omap t_weight ts)]> (trust_weights_round t)))
     else Ok (<[Z.of_nat j := TWList (omap t_weight ts)]> (trust_weights_round t)))
    = Ok (<[Z.of_nat j := slot_of K ts]> (trust_weights_round t))).
  { unfold slot_of. destruct (omap t_weight ts) as [|x ws]; [done|].
    simpl. by rewrite insert_insert_eq. }
  rewrite Hslot. simpl.
  rewrite Hte, Hra, Hta.
  rewrite (py_getitem_snoc _ _ _ Lte), (py_getitem_snoc _ _ _ Lra),
    (py_getitem_snoc _ _ _ Lta). simpl.
  eexists. split; [reflexivity|]. simpl.
  split; [done|]. split; [done|].
  split. { rewrite Htr, <- !app_assoc. done. }
  do 5 (split; [done|]).
  intros i tn Hi. specialize (Hgate i tn Hi).
  destruct (t_calc tn) as [[prior ret]|]; [|done].
  destruct Hgate as [HP Hprior]. split; [done|].
  by rewrite (alter_snoc _ _ _ _ Lsd) in Hprior.
Qed.


(** ** The loop over the rounds *)

Lemma for_each_acc_app {A B} (l1 l2 : list A) (body : A → B → M B) (b : B)
    (s : Machine) :
  for_each_acc (l1 ++ l2) body b s =
  match for_each_acc l1 body b s with
  | Ok (b', s') => for_each_acc l2 body b' s'
  | Raise e => Raise e
  end.
Proof.
  revert b s. induction l1 as [|x l1 IH]; intros b s; [done|].
  simpl. unfold mbind, M_bind.
  destruct (body x b s) as [[b' s']|]; [apply IH|done].
Qed.

Lemma py_range_succ (j : nat) :
  py_range (Z.of_nat (S j)) = py_range (Z.of_nat j) ++ [Z.of_nat j].
Proof.
  unfold py_range. rewrite Nat2Z.inj_succ, <- Z.add_1_r.
  rewrite seqZ_app by lia. f_equal.
Qed.

Lemma baseline_app_l (t : Trainer) (logs more : list (list turn)) (r : nat)
    (ts : list turn) :
  (r ≤ length logs)%nat →
  baseline K t (logs ++ more) r ts = baseline K t logs r ts.
Proof.
  intros Hr. destruct r as [|r']; [done|].
  unfold baseline. by rewrite lookup_app_l by lia.
Qed.

Lemma round_events_app_l (t : Trainer) (logs more : list (list turn)) (r : nat)
    (ts : list turn) :
  (r ≤ length logs)%nat →
  round_events K t (logs ++ more) r ts = round_events K t logs r ts.
Proof. intros Hr. unfold round_events. by rewrite baseline_app_l. Qed.

Lemma prior_of_app_l (logs more : list (list turn)) (r i : nat) (ts : list turn) :
  (r ≤ length logs)%nat →
  prior_of (logs ++ more) r i ts = prior_of logs r i ts.
Proof.
  intros Hr. destruct r as [|r']; [done|].
  unfold prior_of. by rewrite lookup_app_l by lia.
Qed.

Lemma slots_of_snoc (logs : list (list turn)) (ts : list turn) (r : Z) :
  slots_of K (logs ++ [ts]) r =
  if decide (Z.of_nat (length logs) = r) then Some (slot_of K ts)
  else slots_of K logs r.
Proof.
  unfold slots_of. case_decide as Hr.
  - subst r. destruct (Z.leb_spec 0 (Z.of_nat (length logs))); [|lia].
    by rewrite Nat2Z.id, list_lookup_middle.
  - destruct (Z.leb_spec 0 r); [|done].
    destruct (decide (Z.to_nat r < length logs)%nat).
    + by rewrite lookup_app_l.
    + rewrite !lookup_ge_None_2; [done|lia|].
      rewrite length_app. simpl. lia.
Qed.

Lemma logged_nil (s : Machine) : fresh (self s) → logged K s s [].
Proof.
  intros (E1 & E2 & E3 & E4 & Htw). unfold logged. simpl.
  rewrite app_nil_r, E1, E2, E3, E4. repeat split; try done.
  intros r. unfold slots_of. rewrite Htw, lookup_empty. by destruct (0 <=? r).
Qed.

Lemma logged_length (s s' : Machine) (logs : list (list turn)) :
  logged K s s' logs → histories_length (length logs) (self s').
Proof.
  intros (_ & _ & E1 & E2 & E3 & E4 & _). unfold histories_length.
  by rewrite E1, E2, E3, E4, !length_fmap.
Qed.

(** One more round after the rounds [logs]. *)
Lemma logged_snoc (s s1 s' : Machine) (logs : list (list turn)) (ts : list turn)
    (prev : Scalar * Scalar) :
  let t1 := self s1 in
  let e := Z.of_nat (length logs) in
  logged K s s1 logs →
  prev = prev_of K (self s) logs →
  (λ tn, (t_idx tn, t_client tn)) <$> ts = clients t1 →
  static (self s') = static t1 →
  trace s' = trace s1 ++
    concat (turn_events e (num_local_epochs t1) <$> ts) ++
    SetDescription e
      (mean_test K ts)
      (scalar_sub K (mean_test K ts) (if e =? 0 then mean_test K ts else prev.1))
      (mean_ref K t1 ts)
      (scalar_sub K (mean_ref K t1 ts) (if e =? 0 then mean_ref K t1 ts else prev.2))
    :: wandb_events K t1 e ts →
  soft_decisions (self s') = soft_decisions t1 ++ [turn_soft_decision <$> ts] →
  train_accuracies (self s') = train_accuracies t1 ++ [t_train_acc <$> ts] →
  test_accuracies (self s') = test_accuracies t1 ++ [t_test_acc <$> ts] →
  ref_accuracies (self s') = ref_accuracies t1 ++ [turn_ref_acc K t1 <$> ts] →
  trust_weights_round (self s') = <[e := slot_of K ts]> (trust_weights_round t1) →
  (∀ (i : nat) (tn : turn), ts !! i = Some tn →
      match t_calc tn with
      | None => e < pretraining_rounds t1
      | Some (prior, ret) =>
          pretraining_rounds t1 ≤ e ∧
          py_getitem (soft_decisions t1 ++ [take i (turn_soft_decision <$> ts)])
            (e - 1) = Ok prior
      end) →
  logged K s s' (logs ++ [ts]).
Proof.
  intros t1 e (Hst & Htr & Hsd & Hta & Hte & Hra & Htw & Hgated)
    Hprev Hcs Hst' Htr' Hsd' Hta' Hte' Hra' Htw' Hgate.
  subst t1.
  destruct (static_inv _ _ Hst) as (Hcl & _ & HP & Hn & _ & Hm).
  assert (Href : ∀ tn, turn_ref_acc K (self s1) tn = turn_ref_acc K (self s) tn).
  { intros tn. unfold turn_ref_acc. by rewrite Hm. }
  assert (Hrefs : turn_ref_acc K (self s1) <$> ts = turn_ref_acc K (self s) <$> ts).
  { apply list_fmap_ext. intros _ tn _. apply Href. }
  assert (Hmean : mean_ref K (self s1) ts = mean_ref K (self s) ts).
  { unfold mean_ref. by rewrite Hrefs. }
  unfold logged.
  split. { by rewrite Hst'. }
  split.
  { rewrite Htr', Htr, imap_app, concat_app, <- app_assoc. f_equal. f_equal.
    - f_equal. apply imap_ext. intros r ts' Hr. symmetry.
      apply round_events_app_l. apply lookup_lt_Some in Hr. lia.
    - simpl. rewrite app_nil_r, Nat.add_0_r. unfold round_events. fold e.
      rewrite Hn. f_equal.
      unfold wandb_events. rewrite Hmean, Hrefs.
      f_equal. f_equal; f_equal.
      + unfold baseline. destruct (length logs) as [|j'] eqn:Hlen.
        * done.
        * subst e. destruct (Z.eqb_spec (Z.of_nat (S j')) 0); [lia|].
          rewrite Hprev. unfold prev_of.
          rewrite lookup_app_l by lia.
          rewrite last_lookup, Hlen. simpl.
          destruct (lookup_lt_is_Some_2 logs j') as [ts0 ->]; [lia|done].
      + unfold baseline. destruct (length logs) as [|j'] eqn:Hlen.
        * done.
        * subst e. destruct (Z.eqb_spec (Z.of_nat (S j')) 0); [lia|].
          rewrite Hprev. unfold prev_of.
          rewrite lookup_app_l by lia.
          rewrite last_lookup, Hlen. simpl.
          destruct (lookup_lt_is_Some_2 logs j') as [ts0 ->]; [lia|done]. }
  split. { by rewrite Hsd', Hsd, fmap_app. }
  split. { by rewrite Hta', Hta, fmap_app. }
  split. { by rewrite Hte', Hte, fmap_app. }
  split. { by rewrite Hra', Hra, fmap_app, Hrefs. }
  split.
  { intros r. rewrite Htw', slots_of_snoc. fold e. case_decide as Hr.
    - subst r. apply lookup_insert_eq.
    - rewrite lookup_insert_ne by done. apply Htw. }
  intros r ts' Hr.
  destruct (decide (r < length logs)%nat) as [Hlt|Hge].
  - rewrite lookup_app_l in Hr by done.
    destruct (Hgated r ts' Hr) as [Hcs' Hturns]. split; [done|].
    intros i tn Hi. specialize (Hturns i tn Hi).
    destruct (t_calc tn) as [[prior ret]|]; [|done].
    destruct Hturns as [? ->]. split; [done|].
    symmetry. apply prior_of_app_l. lia.
  - assert (r = length logs) as ->.
    { apply lookup_lt_Some in Hr. rewrite length_app in Hr. simpl in Hr. lia. }
    rewrite list_lookup_middle in Hr by done. injection Hr as <-.
    split. { by rewrite Hcs. }
    intros i tn Hi. specialize (Hgate i tn Hi). fold e.
    destruct (t_calc tn) as [[prior ret]|]; [|by rewrite <- HP].
    destruct Hgate as [Hge' Hprior]. split; [by rewrite <- HP|].
    rewrite Hsd in Hprior.
    destruct (length logs) as [|j'] eqn:Hlen.
    + apply length_zero_iff_nil in Hlen. subst logs e. simpl in Hprior.
      by injection Hprior as <-.
    + assert (is_Some (logs !! j')) as [ts0 Hts0].
      { apply lookup_lt_is_Some_2. lia. }
      erewrite py_getitem_lookup in Hprior; cycle 1.
      * subst e. apply py_resolve_pred; [lia|].
        rewrite length_app, length_fmap. simpl. lia.
      * subst e. replace (Z.to_nat (Z.of_nat (S j') - 1)) with j' by lia.
        rewrite lookup_app_l by (rewrite length_fmap; lia).
        rewrite list_lookup_fmap, Hts0. reflexivity.
      * injection Hprior as <-. unfold prior_of.
        by rewrite lookup_app_l, Hts0 by lia.
Qed.


Lemma train_rounds_spec (j : nat) (s : Machine) :
  fresh (self s) →
  ∃ logs s',
    for_each_acc (py_range (Z.of_nat j)) (train_round K)
      (scalar_zero K, scalar_zero K) s
    = Ok (prev_of K (self s) logs, s') ∧
    length logs = j ∧ logged K s s' logs.
Proof.
  intros Hfresh. induction j as [|j IH].
  - exists [], s. split; [done|]. split; [done|]. by apply logged_nil.
  - destruct IH as (logs & s1 & Hrun & Hlen & Hlog).
    pose proof (logged_length _ _ _ Hlog) as Hlens. rewrite Hlen in Hlens.
    destruct (train_round_spec j (prev_of K (self s) logs) s1 Hlens)
      as (ts & s' & Hround & Hcs & Hst & Htr & Hsd & Hta & Hte & Hra & Htw & Hgate).
    exists (logs ++ [ts]), s'.
    assert (Hlog' : logged K s s' (logs ++ [ts])).
    { eapply logged_snoc; rewrite ?Hlen; eauto. }
    split; [|split; [|done]].
    + rewrite py_range_succ, for_each_acc_app, Hrun. simpl.
      unfold mbind, M_bind. rewrite Hround. unfold mret, M_ret.
      unfold prev_of. rewrite last_snoc. do 3 f_equal.
      destruct Hlog as (Hst1 & _).
      destruct (static_inv _ _ Hst1) as (_ & _ & _ & _ & _ & Hm).
      unfold mean_ref. f_equal. apply list_fmap_ext. intros _ tn _.
      unfold turn_ref_acc. by rewrite Hm.
    + rewrite length_app. simpl. lia.
Qed.

Lemma py_range_to_nat (n : Z) : py_range n = py_range (Z.of_nat (Z.to_nat n)).
Proof. unfold py_range, seqZ. by rewrite Nat2Z.id. Qed.

(** [train] on a fresh trainer returns, and the machine it leaves is the
    log of [global_epochs] rounds. *)
Lemma train_spec (global_epochs : Z) (s : Machine) :
  fresh (self s) →
  ∃ logs s',
    train K global_epochs s
    = Ok ((trust_weights_round (self s'), test_accuracies (self s'),
           ref_accuracies (self s')), s') ∧
    length logs = Z.to_nat global_epochs ∧ logged K s s' logs.
Proof.
  intros Hfresh.
  destruct (train_rounds_spec (Z.to_nat global_epochs) s Hfresh)
    as (logs & s' & Hrun & Hlen & Hlog).
  exists logs, s'. split; [|done].
  unfold train, mbind, M_bind. rewrite py_range_to_nat, Hrun. done.
Qed.

Lemma Trainer_init_fresh (cs : list (Z * Client)) (rl : Loader) (ss : SampleSizes)
    (P n : Z) (m : MetricName) (t : Trainer) :
  Trainer_init K cs rl ss P n m = Ok t →
  fresh t ∧ clients t = cs ∧ ref_loader t = rl ∧ pretraining_rounds t = P ∧
  num_local_epochs t = n ∧ metric_name t = m.
Proof.
  unfold Trainer_init. destruct m; intros [= <-]; by repeat split.
Qed.


(** ** Reading a trace round by round *)

Lemma omap_concat {A B} (f : A → option B) (ls : list (list A)) :
  omap f (concat ls) = concat ((λ l : list A, omap f l) <$> ls).
Proof.
  induction ls as [|l ls IH]; [done|].
  rewrite fmap_cons. simpl. by rewrite omap_app, IH.
Qed.

Lemma omap_none {A B} (f : A → option B) (l : list A) :
  Forall (λ x, f x = None) l → omap f l = [].
Proof.
  induction 1 as [|x l Hx _ IH]; [done|].
  change (omap f (x :: l))
    with (match f x with Some y => y :: omap f l | None => omap f l end).
  by rewrite Hx.
Qed.

Lemma concat_imap_nil {A B} (g : nat → A → list B) (l : list A) :
  (∀ r x, l !! r = Some x → g r x = []) → concat (imap g l) = [].
Proof.
  revert g. induction l as [|a l IH]; intros g Hg; [done|].
  rewrite imap_cons. simpl. rewrite (Hg 0%nat a eq_refl). simpl.
  apply IH. intros r x Hr. by apply (Hg (S r)).
Qed.

Lemma concat_imap_single {A B} (g : nat → A → list B) (l : list A) (k : nat)
    (y : A) :
  l !! k = Some y →
  (∀ r x, r ≠ k → l !! r = Some x → g r x = []) →
  concat (imap g l) = g k y.
Proof.
  revert g k. induction l as [|a l IH]; intros g k Hk Hother; [done|].
  rewrite imap_cons. simpl. destruct k as [|k]; simpl in Hk.
  - injection Hk as ->. rewrite concat_imap_nil; [apply app_nil_r|].
    intros r x Hr. by apply (Hother (S r)).
  - rewrite (Hother 0%nat a) by done. simpl.
    apply (IH (g ∘ S) k Hk). intros r x Hne Hr.
    apply (Hother (S r)); [lia|done].
Qed.

Lemma turn_events_round (e n : Z) (tn : turn) :
  Forall (λ ev, event_round ev = Some e) (turn_events e n tn).
Proof.
  unfold turn_events. rewrite !Forall_app. split; [|split].
  - destruct (t_calc tn) as [[prior ret]|]; by repeat constructor.
  - by apply Forall_replicate.
  - by repeat constructor.
Qed.

Lemma round_events_round (t : Trainer) (logs : list (list turn)) (r : nat)
    (ts : list turn) :
  Forall (λ ev, event_round ev = Some (Z.of_nat r) ∨ event_round ev = None)
    (round_events K t logs r ts).
Proof.
  unfold round_events. rewrite Forall_app. split.
  - induction ts as [|tn ts IH]; [constructor|].
    rewrite fmap_cons. simpl. rewrite Forall_app. split; [|done].
    eapply Forall_impl; [apply turn_events_round|]. intros ev Hev. by left.
  - unfold wandb_events. repeat constructor; by right.
Qed.

(** A projection that only reads the events of round [e] finds nothing in
    the events of another round. *)
Lemma omap_other_round {B} (p : event → option B) (e : Z) (t : Trainer)
    (logs : list (list turn)) (r : nat) (ts : list turn) :
  (∀ ev, event_round ev ≠ Some e → p ev = None) →
  Z.of_nat r ≠ e →
  omap p (round_events K t logs r ts) = [].
Proof.
  intros Hp Hr. apply omap_none.
  eapply Forall_impl; [apply round_events_round|].
  intros ev [Hev|Hev]; apply Hp; rewrite Hev; [congruence|done].
Qed.

Lemma omap_logged {B} (p : event → option B) (t : Trainer)
    (logs : list (list turn)) (r : nat) (ts : list turn) :
  (∀ ev, event_round ev ≠ Some (Z.of_nat r) → p ev = None) →
  logs !! r = Some ts →
  omap p (concat (imap (round_events K t logs) logs))
  = omap p (round_events K t logs r ts).
Proof.
  intros Hp Hr. rewrite omap_concat, fmap_imap.
  erewrite (concat_imap_single _ logs r ts Hr); [done|].
  intros r' ts' Hne _. simpl. apply omap_other_round with (e := Z.of_nat r).
  - exact Hp.
  - lia.
Qed.


Lemma calculate_return_round (e : Z) (ev : event) :
  event_round ev ≠ Some e → calculate_return e ev = None.
Proof.
  destruct ev as [r idx c [] | |]; simpl; try done.
  destruct (Z.eqb_spec r e); congruence.
Qed.


Lemma inferred_round (e : Z) (ev : event) :
  event_round ev ≠ Some e → inferred e ev = None.
Proof.
  destruct ev as [r idx c [] | |]; simpl; try done.
  destruct (Z.eqb_spec r e); congruence.
Qed.

Lemma tested_round (e : Z) (m : Mode) (ev : event) :
  event_round ev ≠ Some e → tested e m ev = None.
Proof.
  destruct ev as [r idx c [] | |]; simpl; try done.
  destruct (Z.eqb_spec r e); congruence.
Qed.

Lemma description_round (e : Z) (ev : event) :
  event_round ev ≠ Some e → description e ev = None.
Proof.
  destruct ev as [| r a da b db |]; simpl; try done.
  destruct (Z.eqb_spec r e); congruence.
Qed.


(** ** The calls of one round, from its turns *)

Lemma omap_round_events {B} (p : event → option B) (t : Trainer)
    (logs : list (list turn)) (r : nat) (ts : list turn) :
  omap p (round_events K t logs r ts) =
  concat ((λ tn, omap p (turn_events (Z.of_nat r) (num_local_epochs t) tn)) <$> ts)
  ++ omap p
       (SetDescription (Z.of_nat r)
          (mean_test K ts)
          (scalar_sub K (mean_test K ts) (baseline K t logs r ts).1)
          (mean_ref K t ts)
          (scalar_sub K (mean_ref K t ts) (baseline K t logs r ts).2)
        :: wandb_events K t (Z.of_nat r) ts).
Proof.
  unfold round_events. rewrite omap_app, omap_concat. do 2 f_equal.
  by rewrite <- list_fmap_compose.
Qed.

Lemma concat_singletons_imap {A B} (g : A → list B) (h : nat → A → B)
    (l : list A) :
  (∀ i x, l !! i = Some x → g x = [h i x]) →
  concat (g <$> l) = imap h l.
Proof.
  revert h. induction l as [|a l IH]; intros h Hg; [done|].
  rewrite fmap_cons, imap_cons. simpl. rewrite (Hg 0%nat a eq_refl). simpl.
  f_equal. apply IH. intros i x Hi. by apply (Hg (S i)).
Qed.

Lemma concat_singletons {A B} (g : A → list B) (h : A → B) (l : list A) :
  (∀ i x, l !! i = Some x → g x = [h x]) →
  concat (g <$> l) = h <$> l.
Proof.
  intros Hg. rewrite (concat_singletons_imap g (λ _, h) l Hg).
  induction l as [|a l IH]; [done|].
  rewrite imap_cons, fmap_cons. f_equal. apply IH.
  intros i x Hi. by apply (Hg (S i)).
Qed.

Lemma concat_nils {A B} (g : A → list B) (l : list A) :
  (∀ i x, l !! i = Some x → g x = []) → concat (g <$> l) = [].
Proof.
  induction l as [|a l IH]; intros Hg; [done|].
  rewrite fmap_cons. simpl. rewrite (Hg 0%nat a eq_refl). simpl.
  apply IH. intros i x Hi. by apply (Hg (S i)).
Qed.


Lemma turn_calculate_returns (e n : Z) (tn : turn) :
  omap (calculate_return e) (turn_events e n tn) =
  match t_calc tn with
  | Some (_, ret) => [ret]
  | None => []
  end.
Proof.
  unfold turn_events. rewrite !omap_app, omap_replicate. simpl.
  destruct (t_calc tn) as [[prior ret]|]; simpl; by rewrite ?Z.eqb_refl.
Qed.


Lemma turn_inferences (e n : Z) (tn : turn) :
  omap (inferred e) (turn_events e n tn) =
  [(t_idx tn, t_client tn, t_inferred tn)].
Proof.
  unfold turn_events. rewrite !omap_app, omap_replicate. simpl.
  rewrite Z.eqb_refl.
  destruct (t_calc tn) as [[prior ret]|]; reflexivity.
Qed.

Lemma turn_tests (e n : Z) (m : Mode) (tn : turn) :
  omap (tested e m) (turn_events e n tn) =
  [(t_idx tn, t_client tn,
    match m with mode_train => t_train_acc tn | mode_test => t_test_acc tn end)].
Proof.
  unfold turn_events. rewrite !omap_app, omap_replicate. simpl.
  rewrite Z.eqb_refl.
  destruct (t_calc tn) as [[prior ret]|], m; reflexivity.
Qed.

Lemma turn_events_calls (e n : Z) (tn : turn) :
  Forall (λ ev, ∃ cl, ev = ClientCall e (t_idx tn) (t_client tn) cl)
    (turn_events e n tn).
Proof.
  unfold turn_events. rewrite !Forall_app. split; [|split].
  - destruct (t_calc tn) as [[prior ret]|]; repeat constructor. by eexists.
  - apply Forall_replicate. by eexists.
  - repeat constructor; by eexists.
Qed.

Lemma turn_descriptions (e n : Z) (tn : turn) :
  omap (description e) (turn_events e n tn) = [].
Proof.
  apply omap_none. eapply Forall_impl; [apply turn_events_calls|].
  by intros ev [cl ->].
Qed.

Lemma turn_completed (e n : Z) (tn : turn) :
  omap completed_round (turn_events e n tn) = [].
Proof.
  apply omap_none. eapply Forall_impl; [apply turn_events_calls|].
  by intros ev [cl ->].
Qed.


(** ** A whole run *)

Lemma run_logged (cs : list (Z * Client)) (rl : Loader) (ss : SampleSizes)
    (P n : Z) (m : MetricName) (G : Z) (w : World) :
  m = acc ∨ m = bacc →
  ∃ t logs s',
    Trainer_init K cs rl ss P n m = Ok t ∧
    run K cs rl ss P n m G w
    = Ok ((trust_weights_round (self s'), test_accuracies (self s'),
           ref_accuracies (self s')), s') ∧
    length logs = Z.to_nat G ∧
    trace s' = concat (imap (round_events K t logs) logs) ∧
    logged K (mkMachine t w []) s' logs.
Proof.
  intros Hm.
  assert (∃ t, Trainer_init K cs rl ss P n m = Ok t) as [t Ht].
  { destruct Hm as [-> | ->]; by eexists. }
  destruct (Trainer_init_fresh _ _ _ _ _ _ _ Ht) as (Hfresh & _).
  destruct (train_spec G (mkMachine t w []) Hfresh) as (logs & s' & Hrun & Hlen & Hlog).
  exists t, logs, s'. split; [done|]. split.
  { unfold run. by rewrite Ht. }
  split; [done|]. split; [|done].
  by destruct Hlog as (_ & -> & _).
Qed.

Lemma logs_lookup (logs : list (list turn)) (G e : Z) :
  length logs = Z.to_nat G → 0 ≤ e → e < G →
  ∃ ts, logs !! Z.to_nat e = Some ts.
Proof.
  intros Hlen H0 H1. apply lookup_lt_is_Some_2. lia.
Qed.

Section Reading.

Variable t : Trainer.
Variable logs : list (list turn).
Variable r : nat.
Variable ts : list turn.
Hypothesis Hr : logs !! r = Some ts.

#[local] Abbreviation tr := (concat (imap (round_events K t logs) logs)).


Lemma read_calculate_returns :
  calculate_returns (Z.of_nat r) tr =
  concat ((λ tn, match t_calc tn with
                 | Some (_, ret) => [ret]
                 | None => []
                 end) <$> ts).
Proof.
  unfold calculate_returns.
  rewrite (omap_logged _ _ _ _ _ (calculate_return_round _) Hr), omap_round_events.
  simpl. rewrite app_nil_r. f_equal. apply list_fmap_ext.
  intros _ tn _. apply turn_calculate_returns.
Qed.


Lemma read_inferences :
  inferences (Z.of_nat r) tr =
  (λ tn, (t_idx tn, t_client tn, t_inferred tn)) <$> ts.
Proof.
  unfold inferences.
  rewrite (omap_logged _ _ _ _ _ (inferred_round _) Hr), omap_round_events.
  simpl. rewrite app_nil_r. apply concat_singletons.
  intros _ tn _. apply turn_inferences.
Qed.

Lemma read_tests (m : Mode) :
  tests (Z.of_nat r) m tr =
  (λ tn, (t_idx tn, t_client tn,
          match m with mode_train => t_train_acc tn | mode_test => t_test_acc tn end))
  <$> ts.
Proof.
  unfold tests.
  rewrite (omap_logged _ _ _ _ _ (tested_round _ m) Hr), omap_round_events.
  simpl. rewrite app_nil_r. apply concat_singletons.
  intros _ tn _. apply turn_tests.
Qed.

Lemma read_descriptions :
  descriptions (Z.of_nat r) tr =
  [(mean_test K ts, scalar_sub K (mean_test K ts) (baseline K t logs r ts).1,
    mean_ref K t ts, scalar_sub K (mean_ref K t ts) (baseline K t logs r ts).2)].
Proof.
  unfold descriptions.
  rewrite (omap_logged _ _ _ _ _ (description_round _) Hr), omap_round_events.
  simpl. rewrite Z.eqb_refl, concat_nils; [done|].
  intros _ tn _. apply turn_descriptions.
Qed.

End Reading.


(** ** The phase gate *)

Lemma gated_local (t : Trainer) (logs : list (list turn)) (r : nat)
    (ts : list turn) (i : nat) (tn : turn) :
  gated t logs → logs !! r = Some ts → ts !! i = Some tn →
  Z.of_nat r < pretraining_rounds t → t_calc tn = None.
Proof.
  intros Hg Hr Hi HP. destruct (Hg r ts Hr) as [_ Hturns].
  specialize (Hturns i tn Hi).
  destruct (t_calc tn) as [[prior ret]|]; [lia|done].
Qed.

Lemma gated_distil (t : Trainer) (logs : list (list turn)) (r : nat)
    (ts : list turn) (i : nat) (tn : turn) :
  gated t logs → logs !! r = Some ts → ts !! i = Some tn →
  pretraining_rounds t ≤ Z.of_nat r →
  ∃ ret, t_calc tn = Some (prior_of logs r i ts, ret).
Proof.
  intros Hg Hr Hi HP. destruct (Hg r ts Hr) as [_ Hturns].
  specialize (Hturns i tn Hi).
  destruct (t_calc tn) as [[prior ret]|]; [|lia].
  destruct Hturns as [_ ->]. by exists ret.
Qed.

Lemma gated_clients (t : Trainer) (logs : list (list turn)) (r : nat)
    (ts : list turn) :
  gated t logs → logs !! r = Some ts →
  (λ tn, (t_idx tn, t_client tn)) <$> ts = clients t.
Proof. intros Hg Hr. by destruct (Hg r ts Hr). Qed.








(** ** The histories *)

Lemma concat_imap_index {A B} (h : nat → B) (l : list A) :
  concat (imap (λ r _, [h r]) l) = h <$> seq 0 (length l).
Proof.
  revert h. induction l as [|a l IH]; intros h; [done|].
  rewrite imap_cons. simpl. f_equal.
  rewrite <- fmap_S_seq, <- list_fmap_compose. apply (IH (h ∘ S)).
Qed.

Lemma read_completed (t : Trainer) (logs : list (list turn)) :
  completed_rounds (concat (imap (round_events K t logs) logs))
  = py_range (Z.of_nat (length logs)).
Proof.
  unfold completed_rounds, py_range, seqZ.
  rewrite omap_concat, fmap_imap, Nat2Z.id.
  rewrite (imap_ext _ (λ r _, [Z.of_nat r])).
  - rewrite concat_imap_index. apply list_fmap_ext. intros _ i _. lia.
  - intros r ts _. simpl. rewrite omap_round_events. simpl.
    rewrite concat_nils; [done|]. intros _ tn _. apply turn_completed.
Qed.

Lemma omap_t_weight (ts : list turn) :
  omap t_weight ts =
  (λ ret : option Tensor * Tensor, ret.2) <$>
    concat ((λ tn, match t_calc tn with
                   | Some (_, ret) => [ret]
                   | None => []
                   end) <$> ts).
Proof.
  induction ts as [|tn ts IH]; [done|].
  rewrite fmap_cons. simpl. rewrite fmap_app, <- IH.
  unfold t_weight at 1. by destruct (t_calc tn) as [[prior ret]|].
Qed.

(** C7.  For a positive [global_epochs], [train] on a fresh trainer
    returns after exactly the rounds [0 .. global_epochs - 1], and returns
    the three histories: the accuracy histories have [global_epochs] rows,
    row [e] holding, client after client, what the clients' evaluation in
    round [e] returned (one value per client), and the trust weights
    dictionary has exactly the keys [0 .. global_epochs - 1]. *)
Theorem C7_train_returns_complete_histories
    (cs : list (Z * Client)) (rl : Loader) (ss : SampleSizes)
    (P n : Z) (m : MetricName) (G : Z) (w : World) :
  m = acc ∨ m = bacc → 0 < G →
  ∃ t tw te re s',
    Trainer_init K cs rl ss P n m = Ok t ∧
    run K cs rl ss P n m G w = Ok ((tw, te, re), s') ∧
    completed_rounds (trace s') = py_range G ∧
    Z.of_nat (length te) = G ∧ Z.of_nat (length re) = G ∧
    (∀ e : Z, is_Some (tw !! e) ↔ 0 ≤ e < G) ∧
    ∀ e : Z, 0 ≤ e → e < G →
      ∃ test_row ref_row,
        te !! Z.to_nat e = Some test_row ∧ re !! Z.to_nat e = Some ref_row ∧
        length test_row = length cs ∧ length ref_row = length cs ∧
        (λ x, x.1) <$> tests e mode_test (trace s') = cs ∧
        test_row = (λ x, x.2) <$> tests e mode_test (trace s') ∧
        (λ x, x.1) <$> inferences e (trace s') = cs ∧
        ref_row = (λ x, metric t x.2.2 (torch_argmax K x.2.1))
                    <$> inferences e (trace s').
Proof.
  intros Hm HG.
  destruct (run_logged cs rl ss P n m G w Hm)
    as (t & logs & s' & Ht & Hrun & Hlen & Htr & Hlog).
  destruct (Trainer_init_fresh _ _ _ _ _ _ _ Ht) as (_ & Hcs & _).
  destruct Hlog as (_ & _ & _ & _ & Hte & Hra & Htw & Hg). simpl in *.
  exists t. eexists _, _, _, s'. split; [done|]. split; [exact Hrun|].
  rewrite Htr, Hte, Hra, !length_fmap, Hlen.
  split. { rewrite read_completed, Hlen. f_equal. lia. }
  split; [lia|]. split; [lia|]. split.
  - intros e. rewrite Htw. unfold slots_of.
    destruct (Z.leb_spec 0 e) as [H0|H0].
    + rewrite fmap_is_Some, lookup_lt_is_Some. lia.
    + split; [by intros [? ?]|lia].
  - intros e H0 He.
    assert (∃ r : nat, e = Z.of_nat r) as [r ->].
    { exists (Z.to_nat e). lia. }
    destruct (logs_lookup logs G (Z.of_nat r) Hlen) as [ts Hts]; [lia|lia|].
    rewrite Nat2Z.id in *.
    pose proof (gated_clients t logs _ ts Hg Hts) as Hclients.
    rewrite Hcs in Hclients.
    rewrite (read_tests t logs _ ts Hts), (read_inferences t logs _ ts Hts).
    rewrite !list_lookup_fmap, Hts. simpl.
    eexists _, _. split; [done|]. split; [done|].
    rewrite <- !list_fmap_compose, !length_fmap, <- Hclients, length_fmap.
    by repeat split.
Qed.



Lemma length_omap_all {A B} (f : A → option B) (l : list A) :
  (∀ i x, l !! i = Some x → is_Some (f x)) → length (omap f l) = length l.
Proof.
  induction l as [|a l IH]; intros Hf; [done|].
  change (omap f (a :: l))
    with (match f a with Some y => y :: omap f l | None => omap f l end).
  destruct (Hf 0%nat a eq_refl) as [y ->]. simpl. f_equal.
  apply IH. intros i x Hi. by apply (Hf (S i)).
Qed.

(** C3, as the code has it.  After the run, the slot of a round [e] below
    [pretraining_rounds] is the empty list the round started from, and the
    slot of a round [e] from [pretraining_rounds] on is, when there is at
    least one client, [torch.stack] of the trust weights the clients'
    [calculate_soft_decision_target] returned in round [e], one per client
    in the order of the clients; with no client it is the empty list
    again. *)
Theorem C3_trust_weight_slots
    (cs : list (Z * Client)) (rl : Loader) (ss : SampleSizes)
    (P n : Z) (m : MetricName) (G : Z) (w : World) (e : Z) :
  m = acc ∨ m = bacc → 0 ≤ e → e < G →
  ∃ tw te re s',
    run K cs rl ss P n m G w = Ok ((tw, te, re), s') ∧
    let weights := (λ ret, ret.2) <$> calculate_returns e (trace s') in
    (e < P → tw !! e = Some (TWList [])) ∧
    (P ≤ e → length weights = length cs) ∧
    (P ≤ e → cs ≠ [] → tw !! e = Some (TWStacked (torch_stack K weights))) ∧
    (P ≤ e → cs = [] → tw !! e = Some (TWList [])).
Proof.
  intros Hm H0 He.
  destruct (run_logged cs rl ss P n m G w Hm)
    as (t & logs & s' & Ht & Hrun & Hlen & Htr & Hlog).
  destruct (Trainer_init_fresh _ _ _ _ _ _ _ Ht) as (_ & Hcs & _ & HPt & _).
  destruct Hlog as (_ & _ & _ & _ & _ & _ & Htw & Hg). simpl in *.
  assert (∃ r : nat, e = Z.of_nat r) as [r ->].
  { exists (Z.to_nat e). lia. }
  destruct (logs_lookup logs G (Z.of_nat r) Hlen) as [ts Hts]; [lia|lia|].
  rewrite Nat2Z.id in Hts.
  pose proof (gated_clients t logs _ ts Hg Hts) as Hclients.
  rewrite Hcs in Hclients.
  eexists _, _, _, s'. split; [exact Hrun|]. simpl.
  rewrite Htr, (read_calculate_returns t logs _ ts Hts), <- omap_t_weight.
  rewrite Htw. unfold slots_of.
  destruct (Z.leb_spec 0 (Z.of_nat r)); [|lia].
  rewrite Nat2Z.id, Hts. simpl. unfold slot_of.
  assert (Hlocal : Z.of_nat r < P → omap t_weight ts = []).
  { intros HP. apply omap_none. apply Forall_lookup. intros i tn Hi.
    unfold t_weight.
    rewrite (gated_local t logs r ts i tn Hg Hts Hi); [done|lia]. }
  assert (Hdistil : P ≤ Z.of_nat r → length (omap t_weight ts) = length cs).
  { intros HP. rewrite <- Hclients, length_fmap.
    apply length_omap_all. intros i tn Hi.
    destruct (gated_distil t logs r ts i tn Hg Hts Hi) as [ret Hret]; [lia|].
    unfold t_weight. rewrite Hret. by eexists. }
  split. { intros HP. by rewrite (Hlocal HP). }
  split; [done|]. split.
  - intros HP Hne. specialize (Hdistil HP).
    destruct (omap t_weight ts) as [|x ws]; [|done].
    destruct cs; [done|discriminate Hdistil].
  - intros HP ->. specialize (Hdistil HP).
    by destruct (omap t_weight ts).
Qed.


(** C6.  A metric outside [MetricName.acc] and [MetricName.bacc] makes
    [__init__] raise, so that no trainer exists for [train] to run a round
    on; [acc] and [bacc] make it succeed with [accuracy_score] and
    [balanced_accuracy_score] as the scoring function. *)
Theorem C6_unknown_metric_rejected_at_construction
    (cs : list (Z * Client)) (rl : Loader) (ss : SampleSizes)
    (P n : Z) (G : Z) (w : World) (name : string) :
  Trainer_init K cs rl ss P n (other_metric name)
  = Raise (UnknownNameCustomEnumException (other_metric name)) ∧
  run K cs rl ss P n (other_metric name) G w
  = Raise (UnknownNameCustomEnumException (other_metric name)) ∧
  (∃ t, Trainer_init K cs rl ss P n acc = Ok t ∧
        metric_name t = acc ∧ metric t = accuracy_score K) ∧
  (∃ t, Trainer_init K cs rl ss P n bacc = Ok t ∧
        metric_name t = bacc ∧ metric t = balanced_accuracy_score K).
Proof.
  split; [done|]. split; [done|]. split; eexists; by repeat split.
Qed.

End Facts.

(** * The toy federation, run *)

Module ToyRuns.

Import Toy.





Lemma C7_witness :
  ∃ t tw te re s',
    Trainer_init K two_clients tt tt 1 1 acc = Ok t ∧
    run K two_clients tt tt 1 1 acc 2 0 = Ok ((tw, te, re), s') ∧
    completed_rounds (trace s') = py_range 2 ∧
    Z.of_nat (length te) = 2 ∧ Z.of_nat (length re) = 2 ∧
    (∀ e : Z, is_Some (tw !! e) ↔ 0 ≤ e < 2) ∧
    ∀ e : Z, 0 ≤ e → e < 2 →
      ∃ test_row ref_row,
        te !! Z.to_nat e = Some test_row ∧ re !! Z.to_nat e = Some ref_row ∧
        length test_row = length two_clients ∧
        length ref_row = length two_clients ∧
        (λ x, x.1) <$> tests e mode_test (trace s') = two_clients ∧
        test_row = (λ x, x.2) <$> tests e mode_test (trace s') ∧
        (λ x, x.1) <$> inferences e (trace s') = two_clients ∧
        ref_row = (λ x, metric t x.2.2 (torch_argmax K x.2.1))
                    <$> inferences e (trace s').
Proof.
  apply (C7_train_returns_complete_histories K two_clients tt tt 1 1 acc 2 0);
    [left; reflexivity | lia].
Defined.


Lemma C3_witness :
  ∃ tw te re s',
    run K two_clients tt tt 1 1 acc 2 0 = Ok ((tw, te, re), s') ∧
    let weights := (λ ret, ret.2) <$> calculate_returns 1 (trace s') in
    (1 < 1 → tw !! 1 = Some (TWList [])) ∧
    (1 ≤ 1 → length weights = length two_clients) ∧
    (1 ≤ 1 → two_clients ≠ [] → tw !! 1 = Some (TWStacked (torch_stack K weights))) ∧
    (1 ≤ 1 → two_clients = [] → tw !! 1 = Some (TWList [])).
Proof.
  apply (C3_trust_weight_slots K two_clients tt tt 1 1 acc 2 0 1);
    [left; reflexivity | lia | lia].
Defined.

(** The toy federation with one round of pretraining, two local epochs
    and two rounds, as the collaborators saw it. *)
Example toy_round_one_calls :
  calculate_calls 1 <$> trace_of (run K two_clients tt tt 1 2 acc 2 0)
  = Some [(0, 7, 1, [[72]; [94]]); (1, 9, 1, [[72]; [94]])].
Proof. by vm_compute. Qed.

Example toy_round_one_training :
  train_calls 1 <$> trace_of (run K two_clients tt tt 1 2 acc 2 0)
  = Some [(0, 7, Some [72; 94]); (0, 7, Some [72; 94]);
          (1, 9, Some [72; 94]); (1, 9, Some [72; 94])].
Proof. by vm_compute. Qed.

Example toy_reports :
  (λ tr, (descriptions 0 tr, descriptions 1 tr))
    <$> trace_of (run K two_clients tt tt 1 2 acc 2 0)
  = Some ([(14, 0, 91, 0)], [(22, 8, 95, 4)]).
Proof. by vm_compute. Qed.

Example toy_unknown_metric :
  observe (run K two_clients tt tt 1 2 (other_metric "unknown") 2 0)
  = Raise (UnknownNameCustomEnumException (other_metric "unknown")).
Proof. reflexivity. Qed.

(** A finite double minus itself is zero. *)
Lemma double_sub_diag (x : float) :
  is_finite x = true → (x - x)%float = 0%float.
Proof.
  intros Hx. apply Prim2SF_inj. rewrite sub_spec.
  unfold is_finite, is_nan, is_infinity in Hx.
  rewrite !FloatAxioms.eqb_spec, abs_spec in Hx.
  destruct (Prim2SF x) as [[]|[]| |[] m e]; try done.
  all: unfold SF64sub, SFsub; cbn [cond_Zopp]; rewrite Z.sub_diag; reflexivity.
Qed.

(** The reports of the federation on doubles, with one round of
    pretraining and one local epoch: means and deltas of the test and of the
    reference accuracies, the deltas of round 0 being zero. *)
Example toy_reports_on_doubles :
  (λ tr, (descriptions 0 tr, descriptions 1 tr))
    <$> trace_of (run KF two_clients tt tt 1 1 acc 2 0)
  = Some ([(0.171875, 0, 0.69921875, 0)],
          [(0.234375, 0.0625, 0.71484375, 0.015625)])%float.
Proof. by vm_compute. Qed.


(** C3, as stated, fails.  A round below [pretraining_rounds] leaves the
    empty list in its slot, no marker of its own; and a round from
    [pretraining_rounds] on in which every client (there is none) returned
    its weight leaves the very same empty list, not a stacked tensor. *)
Lemma C3_counterexample :
  slot_after (run K two_clients tt tt 1 1 acc 1 0) 0 = Some (TWList []) ∧
  slot_after (run K [] tt tt 0 1 acc 1 0) 0 = Some (TWList []) ∧
  ¬ ∃ x, slot_after (run K [] tt tt 0 1 acc 1 0) 0 = Some (TWStacked x).
Proof.
  split; [by vm_compute|]. split; [by vm_compute|].
  intros [x Hx]. vm_compute in Hx. discriminate Hx.
Qed.

(** C2, on the code.  With [pretraining_rounds = 0] the constructor
    accepts, and round 0 calls [calculate_soft_decision_target] on both
    clients: the first is handed the empty list, the second the soft decision
    the first has just produced in round 0 itself. *)
Lemma C2_round_zero_distils_from_round_zero :
  (∃ t, Trainer_init K two_clients tt tt 0 1 acc = Ok t) ∧
  calculate_calls 0 <$> trace_of (run K two_clients tt tt 0 1 acc 1 0)
  = Some [(0, 7, 0, []); (1, 9, 0, [[71]])] ∧
  train_calls 0 <$> trace_of (run K two_clients tt tt 0 1 acc 1 0)
  = Some [(0, 7, Some []); (1, 9, Some [71])].
Proof.
  split; [by eexists|]. split; by vm_compute.
Qed.

End ToyRuns.

(** * More of the round loop *)

Section Rounds.

Context {Client Loader SampleSizes Tensor Labels Scalar World : Type}.
Variable K : @Externals Client Loader Tensor Labels Scalar World.

#[local] Abbreviation Trainer := (@Trainer Client Loader SampleSizes Tensor Labels Scalar).
#[local] Abbreviation Machine := (@Machine Client Loader SampleSizes Tensor Labels Scalar World).
#[local] Abbreviation event := (@event Client Tensor Labels Scalar).
#[local] Abbreviation turn := (@turn Client Tensor Labels Scalar).

Lemma client_call_round (e : Z) (ev : event) :
  event_round ev ≠ Some e → client_call e ev = None.
Proof.
  destruct ev as [r idx c cl | |]; simpl; try done.
  destruct (Z.eqb_spec r e); congruence.
Qed.

Lemma turn_client_calls (e n : Z) (tn : turn) :
  omap (client_call e) (turn_events e n tn) = turn_calls e n tn.
Proof.
  unfold turn_events, turn_calls.
  rewrite !omap_app, omap_replicate, !fmap_app, fmap_replicate. simpl.
  rewrite Z.eqb_refl.
  destruct (t_calc tn) as [[prior ret]|]; simpl; by rewrite ?Z.eqb_refl.
Qed.

Lemma read_client_calls (t : Trainer) (logs : list (list turn)) (r : nat)
    (ts : list turn) :
  logs !! r = Some ts →
  client_calls (Z.of_nat r) (concat (imap (round_events K t logs) logs))
  = concat (turn_calls (Z.of_nat r) (num_local_epochs t) <$> ts).
Proof.
  intros Hr. unfold client_calls.
  rewrite (omap_logged K _ _ _ _ _ (client_call_round _) Hr), omap_round_events.
  simpl. rewrite app_nil_r. f_equal. apply list_fmap_ext.
  intros _ tn _. apply turn_client_calls.
Qed.



(** X2.  After a run the trainer holds, beside what it returns, one row of
    soft decisions and one row of train accuracies per round: row [e] of
    [soft_decisions] is what [infer_on_refdata] returned to each client in
    round [e], and row [e] of [train_accuracies] what [test] in mode
    ['train'] returned, in the order of the clients. *)
Theorem X2_soft_decisions_and_train_accuracies
    (cs : list (Z * Client)) (rl : Loader) (ss : SampleSizes)
    (P n : Z) (m : MetricName) (G : Z) (w : World) :
  m = acc ∨ m = bacc → 0 < G →
  ∃ h s',
    run K cs rl ss P n m G w = Ok (h, s') ∧
    Z.of_nat (length (soft_decisions (self s'))) = G ∧
    Z.of_nat (length (train_accuracies (self s'))) = G ∧
    ∀ e : Z, 0 ≤ e → e < G →
      soft_decisions (self s') !! Z.to_nat e
      = Some ((λ x, x.2.1) <$> inferences e (trace s')) ∧
      train_accuracies (self s') !! Z.to_nat e
      = Some ((λ x, x.2) <$> tests e mode_train (trace s')) ∧
      (λ x, x.1) <$> inferences e (trace s') = cs ∧
      (λ x, x.1) <$> tests e mode_train (trace s') = cs.
Proof.
  intros Hm HG.
  destruct (run_logged K cs rl ss P n m G w Hm)
    as (t & logs & s' & Ht & Hrun & Hlen & Htr & Hlog).
  destruct (Trainer_init_fresh _ _ _ _ _ _ _ _ Ht) as (_ & Hcs & _).
  destruct Hlog as (_ & _ & Hsd & Hta & _ & _ & _ & Hg). simpl in *.
  eexists _, s'. split; [exact Hrun|].
  rewrite Htr, Hsd, Hta, !length_fmap, Hlen.
  split; [lia|]. split; [lia|].
  intros e H0 He.
  assert (∃ r : nat, e = Z.of_nat r) as [r ->].
  { exists (Z.to_nat e). lia. }
  destruct (logs_lookup logs G (Z.of_nat r) Hlen) as [ts Hts]; [lia|lia|].
  rewrite Nat2Z.id in *.
  pose proof (gated_clients t logs _ ts Hg Hts) as Hclients.
  rewrite Hcs in Hclients.
  rewrite (read_tests K t logs _ ts Hts), (read_inferences K t logs _ ts Hts).
  rewrite !list_lookup_fmap, Hts, <- !list_fmap_compose. simpl.
  by repeat split.
Qed.

(** X3.  With an empty [clients] dictionary a run still goes through its
    rounds: it calls no client, every row of the returned histories is
    empty, every slot of trust weights is the empty list, and each round
    reports numpy's mean of the empty list, with that mean minus itself as
    delta. *)
Theorem X3_no_clients
    (rl : Loader) (ss : SampleSizes)
    (P n : Z) (m : MetricName) (G : Z) (w : World) (e : Z) :
  m = acc ∨ m = bacc → 0 ≤ e → e < G →
  ∃ tw te re s',
    run K [] rl ss P n m G w = Ok ((tw, te, re), s') ∧
    client_calls e (trace s') = [] ∧
    te !! Z.to_nat e = Some [] ∧ re !! Z.to_nat e = Some [] ∧
    tw !! e = Some (TWList []) ∧
    descriptions e (trace s')
    = [(np_mean K [], scalar_sub K (np_mean K []) (np_mean K []),
        np_mean K [], scalar_sub K (np_mean K []) (np_mean K []))].
Proof.
  intros Hm H0 HG.
  destruct (run_logged K [] rl ss P n m G w Hm)
    as (t & logs & s' & Ht & Hrun & Hlen & Htr & Hlog).
  destruct (Trainer_init_fresh _ _ _ _ _ _ _ _ Ht) as (_ & Hcs & _).
  destruct Hlog as (_ & _ & _ & _ & Hte & Hra & Htw & Hg). simpl in *.
  assert (Hempty : ∀ r ts, logs !! r = Some ts → ts = []).
  { intros r ts Hts. pose proof (gated_clients t logs r ts Hg Hts) as Hc.
    rewrite Hcs in Hc. by apply fmap_nil_inv in Hc. }
  assert (∃ r : nat, e = Z.of_nat r) as [r ->].
  { exists (Z.to_nat e). lia. }
  destruct (logs_lookup logs G (Z.of_nat r) Hlen) as [ts Hts]; [lia|lia|].
  rewrite Nat2Z.id in *.
  pose proof (Hempty r ts Hts) as ->.
  eexists _, _, _, s'. split; [exact Hrun|].
  rewrite Htr, Hte, Hra, Htw, !list_lookup_fmap, Hts.
  rewrite (read_client_calls t logs r [] Hts).
  rewrite (read_descriptions K t logs r [] Hts).
  unfold slots_of. destruct (Z.leb_spec 0 (Z.of_nat r)); [|lia].
  rewrite Nat2Z.id, Hts. simpl.
  do 4 (split; [done|]).
  unfold baseline. destruct r as [|r']; [done|].
  destruct (lookup_lt_is_Some_2 logs r') as [ts0 Hts0].
  { apply lookup_lt_Some in Hts. lia. }
  rewrite Hts0, (Hempty r' ts0 Hts0). done.
Qed.




Lemma concat_rounds_sorted (segs : list (list Z)) (k : nat) :
  (∀ r seg, segs !! r = Some seg → Forall (λ x, x = Z.of_nat (k + r)) seg) →
  StronglySorted Z.le (concat segs) ∧ Forall (λ x, Z.of_nat k ≤ x) (concat segs).
Proof.
  revert k. induction segs as [|seg segs IH]; intros k Hsegs.
  { split; constructor. }
  destruct (IH (S k)) as [Hsorted Hlow].
  { intros r seg' Hr. replace (S k + r)%nat with (k + S r)%nat by lia.
    by apply Hsegs. }
  pose proof (Hsegs 0%nat seg eq_refl) as Hseg. rewrite Nat.add_0_r in Hseg.
  simpl. split.
  - apply StronglySorted_app_2; [| |done].
    + intros x1 x2 H1 H2.
      rewrite Forall_forall in Hseg. rewrite Forall_forall in Hlow.
      rewrite (Hseg x1) by done. specialize (Hlow x2 H2). simpl in Hlow. lia.
    + clear -Hseg. induction Hseg as [|x seg -> Hseg IH]; constructor; [done|].
      eapply Forall_impl; [exact Hseg|]. intros y ->. done.
  - apply Forall_app. split.
    + eapply Forall_impl; [exact Hseg|]. intros x ->. done.
    + eapply Forall_impl; [exact Hlow|]. intros x Hx. simpl in Hx. lia.
Qed.

Lemma omap_all {A B} (f : A → option B) (y : B) (l : list A) :
  Forall (λ x, f x = Some y ∨ f x = None) l → Forall (λ z, z = y) (omap f l).
Proof.
  induction 1 as [|x l Hx _ IH]; [constructor|].
  change (omap f (x :: l))
    with (match f x with Some z => z :: omap f l | None => omap f l end).
  destruct Hx as [-> | ->]; [by constructor|done].
Qed.

(** X5.  Rounds never interleave: along the trace of a run the rounds of
    the calls and of the progress reports never decrease, so every call and
    the report of a round come before anything of a later round. *)
Theorem X5_rounds_in_order
    (cs : list (Z * Client)) (rl : Loader) (ss : SampleSizes)
    (P n : Z) (m : MetricName) (G : Z) (w : World) :
  m = acc ∨ m = bacc →
  ∃ h s',
    run K cs rl ss P n m G w = Ok (h, s') ∧
    StronglySorted Z.le (omap event_round (trace s')).
Proof.
  intros Hm.
  destruct (run_logged K cs rl ss P n m G w Hm)
    as (t & logs & s' & Ht & Hrun & Hlen & Htr & Hlog).
  eexists _, s'. split; [exact Hrun|].
  rewrite Htr, omap_concat, fmap_imap.
  apply (concat_rounds_sorted _ 0). intros r seg Hr.
  apply list_lookup_imap_Some in Hr as (ts & Hts & ->). simpl.
  apply omap_all. apply round_events_round.
Qed.

Lemma py_resolve_empty (i : Z) : py_resolve 0 i = None.
Proof.
  unfold py_resolve. change (Z.of_nat 0) with 0. change (- 0) with 0.
  destruct (Z.leb_spec 0 i) as [H|H].
  - destruct (Z.ltb_spec i 0); [lia|done].
  - done.
Qed.

(** X6.  [__global_epoch] relies on [train] having allocated the rows of
    the round: on a trainer as [__init__] leaves it, with at least one
    client, it raises IndexError in whatever round, be it at
    [soft_decisions[e - 1]] or, in a local-only round, at
    [train_accuracies[e]] once the first client has trained and been tested;
    with no client it returns without a call. *)
Theorem X6_global_epoch_needs_the_rows_of_train
    (cs : list (Z * Client)) (rl : Loader) (ss : SampleSizes)
    (P n : Z) (m : MetricName) (t : Trainer) (w : World) (e : Z) :
  Trainer_init K cs rl ss P n m = Ok t →
  global_epoch K e (mkMachine t w [])
  = match cs with
    | [] => Ok (tt, mkMachine t w [])
    | _ :: _ => Raise IndexError
    end.
Proof.
  intros Ht.
  destruct (Trainer_init_fresh _ _ _ _ _ _ _ _ Ht) as ((Hsd & Hta & _) & Hcs & _).
  unfold global_epoch, mbind, M_bind, get_self. simpl. rewrite Hcs.
  destruct cs as [|[idx c] cs]; [done|].
  simpl. unfold mbind, M_bind, global_epoch_client at 1, mbind, M_bind, get_self.
  simpl. destruct (e <? pretraining_rounds t).
  - unfold mret, M_ret.
    destruct (local_epochs_spec K e idx c None (py_range (num_local_epochs t))
                (mkMachine t w [])) as [w1 ->].
    unfold extern, emit, lift. simpl.
    destruct (client_test K c (metric_name t) mode_train w1) as [a w2].
    simpl. unfold py_getitem_append. by rewrite Hta, py_resolve_empty.
  - unfold lift, py_getitem. by rewrite Hsd, py_resolve_empty.
Qed.


(** ** A trainer that is trained again *)

Lemma merge_rows_length {A} (old vs : list (list A)) :
  length (merge_rows old vs) = (length old + length vs)%nat.
Proof. unfold merge_rows. by rewrite length_fmap, length_seq. Qed.

Lemma merge_rows_lookup {A} (old vs : list (list A)) (i : nat) :
  (i < length old + length vs)%nat →
  merge_rows old vs !! i = Some (default [] (old !! i) ++ default [] (vs !! i)).
Proof.
  intros Hi. unfold merge_rows.
  by rewrite list_lookup_fmap, lookup_seq_lt.
Qed.

Lemma merge_rows_nil {A} (old : list (list A)) : merge_rows old [] = old.
Proof.
  apply list_eq. intros i.
  destruct (decide (i < length old)%nat) as [Hi|Hi].
  - rewrite merge_rows_lookup by (simpl; lia).
    destruct (lookup_lt_is_Some_2 old i Hi) as [row Hrow].
    rewrite Hrow. simpl. by rewrite app_nil_r.
  - rewrite !lookup_ge_None_2; [done|lia|].
    rewrite merge_rows_length. simpl. lia.
Qed.

Lemma merge_rows_snoc {A} (old vs : list (list A)) (v : list A) :
  alter (λ row, row ++ v) (length vs) (merge_rows old vs ++ [[]])
  = merge_rows old (vs ++ [v]).
Proof.
  apply list_eq. intros i.
  destruct (decide (i < length old + length vs + 1)%nat) as [Hi|Hi]; cycle 1.
  { rewrite !lookup_ge_None_2; [done| |].
    - rewrite merge_rows_length, length_app. simpl. lia.
    - rewrite length_alter, length_app, merge_rows_length. simpl. lia. }
  rewrite (merge_rows_lookup old (vs ++ [v])) by (rewrite length_app; simpl; lia).
  assert (Hrow : (merge_rows old vs ++ [[]]) !! i
                 = Some (default [] (old !! i) ++ default [] (vs !! i))).
  { destruct (decide (i < length old + length vs)%nat) as [Hlt|Hge].
    - rewrite lookup_app_l by (rewrite merge_rows_length; lia).
      by apply merge_rows_lookup.
    - assert (i = (length old + length vs)%nat) as -> by lia.
      rewrite lookup_app_r by (rewrite merge_rows_length; lia).
      rewrite merge_rows_length, Nat.sub_diag. simpl.
      rewrite !lookup_ge_None_2 by lia. done. }
  destruct (decide (i = length vs)) as [->|Hne].
  - rewrite list_lookup_alter_eq, Hrow. simpl.
    rewrite list_lookup_middle by done.
    rewrite (lookup_ge_None_2 vs) by lia. simpl. by rewrite app_nil_r.
  - rewrite list_lookup_alter_ne by done. rewrite Hrow.
    destruct (decide (i < length vs)%nat).
    + by rewrite lookup_app_l by lia.
    + rewrite (lookup_ge_None_2 vs i) by lia.
      rewrite (lookup_ge_None_2 (vs ++ [v]) i); [done|].
      rewrite length_app. simpl. lia.
Qed.

Lemma py_getitem_alter {A} (f : list A → list A) (l : list (list A)) (e : Z) :
  0 ≤ e → e < Z.of_nat (length l) →
  ∃ row, py_getitem (alter f (Z.to_nat e) l) e = Ok row.
Proof.
  intros H0 H1.
  destruct (lookup_lt_is_Some_2 (alter f (Z.to_nat e) l) (Z.to_nat e)) as [row Hrow].
  { rewrite length_alter. lia. }
  exists row. apply py_getitem_lookup with (k := Z.to_nat e); [|done].
  apply py_resolve_nonneg; [done|]. by rewrite length_alter.
Qed.


(** One iteration of [train] on any trainer whose histories have at least
    [e] rows. *)
Lemma train_round_any (e : Z) (prev : Scalar * Scalar) (s : Machine) :
  let t := self s in
  let k := Z.to_nat e in
  0 ≤ e →
  e ≤ Z.of_nat (length (soft_decisions t)) →
  e ≤ Z.of_nat (length (train_accuracies t)) →
  e ≤ Z.of_nat (length (test_accuracies t)) →
  e ≤ Z.of_nat (length (ref_accuracies t)) →
  ∃ ts s' prev',
    train_round K e prev s = Ok (prev', s') ∧
    (λ tn, (t_idx tn, t_client tn)) <$> ts = clients t ∧
    static (self s') = static t ∧
    (∃ a da b db d1 d2,
       trace s' = trace s ++
         concat (turn_events e (num_local_epochs t) <$> ts) ++
         [SetDescription e a da b db; WandbLog d1; WandbLog d2]) ∧
    soft_decisions (self s')
    = alter (λ row, row ++ (turn_soft_decision <$> ts)) k (soft_decisions t ++ [[]]) ∧
    train_accuracies (self s')
    = alter (λ row, row ++ (t_train_acc <$> ts)) k (train_accuracies t ++ [[]]) ∧
    test_accuracies (self s')
    = alter (λ row, row ++ (t_test_acc <$> ts)) k (test_accuracies t ++ [[]]) ∧
    ref_accuracies (self s')
    = alter (λ row, row ++ (turn_ref_acc K t <$> ts)) k (ref_accuracies t ++ [[]]) ∧
    trust_weights_round (self s') = <[e := slot_of K ts]> (trust_weights_round t) ∧
    ∀ (i : nat) (tn : turn), ts !! i = Some tn →
      match t_calc tn with
      | None => e < pretraining_rounds t
      | Some (prior, ret) =>
          pretraining_rounds t ≤ e ∧
          py_getitem
            (alter (λ row, row ++ take i (turn_soft_decision <$> ts)) k
               (soft_decisions t ++ [[]])) (e - 1) = Ok prior
      end.
Proof.
  intros t k H0 Lsd Lta Lte Lra. subst t k. destruct s as [t w tr]. simpl in *.
  unfold train_round, mbind, M_bind, modify_self, global_epoch, get_self. simpl.
  unfold mbind, M_bind. simpl.
  match goal with |- context [for_each ?l ?f ?s0] =>
    destruct (for_each_clients_spec K e l [] s0)
      as (ts & [t1 w1 tr1] & Hrun & Hcs & Hpost)
  end.
  { unfold round_ready. simpl. rewrite !length_app, lookup_insert_eq. simpl.
    repeat split; lia || done. }
  rewrite Hrun.
  destruct Hpost as (Hst & Htr & Hsd & Hta & Hte & Hra & Htw & Hgate).
  unfold turn_ref_acc, mean_ref in *. simpl in *.
  rewrite insert_insert_eq in Htw.
  exists ts.
  unfold lift, trust_weights_stack, emit, mret, M_ret. rewrite Htw, lookup_insert_eq.
  assert (Hslot :
    (if 0 <? Z.of_nat (length (omap t_weight ts))
     then Ok (<[e := TWStacked (torch_stack K (omap t_weight ts))]>
                (<[e := TWList (omap t_weight ts)]> (trust_weights_round t)))
     else Ok (<[e := TWList (omap t_weight ts)]> (trust_weights_round t)))
    = Ok (<[e := slot_of K ts]> (trust_weights_round t))).
  { unfold slot_of. destruct (omap t_weight ts) as [|x ws]; [done|].
    simpl. by rewrite insert_insert_eq. }
  rewrite Hslot. simpl.
  rewrite Hte, Hra, Hta.
  destruct (py_getitem_alter (λ row, row ++ (t_test_acc <$> ts))
              (test_accuracies t ++ [[]]) e H0) as [row_te ->].
  { rewrite length_app. simpl. lia. }
  simpl.
  match goal with |- context [py_getitem (alter ?f _ (ref_accuracies t ++ [[]])) e] =>
    destruct (py_getitem_alter f (ref_accuracies t ++ [[]]) e H0) as [row_ra ->]
  end.
  { rewrite length_app. simpl. lia. }
  simpl.
  destruct (py_getitem_alter (λ row, row ++ (t_train_acc <$> ts))
              (train_accuracies t ++ [[]]) e H0) as [row_ta ->].
  { rewrite length_app. simpl. lia. }
  simpl.
  eexists _, _. split; [reflexivity|]. simpl.
  split; [done|]. split; [done|].
  split. { eexists _, _, _, _, _, _. rewrite Htr, <- !app_assoc. done. }
  by do 5 (split; [done|]).
Qed.


Lemma round_of_snoc (logs : list (list turn)) (ts : list turn) (e : Z) :
  round_of (logs ++ [ts]) e =
  if decide (Z.of_nat (length logs) = e) then Some ts else round_of logs e.
Proof.
  unfold round_of. case_decide as Hr.
  - subst e. destruct (Z.leb_spec 0 (Z.of_nat (length logs))); [|lia].
    by rewrite Nat2Z.id, list_lookup_middle.
  - destruct (Z.leb_spec 0 e); [|done].
    destruct (decide (Z.to_nat e < length logs)%nat).
    + by rewrite lookup_app_l.
    + rewrite !lookup_ge_None_2; [done|lia|].
      rewrite length_app. simpl. lia.
Qed.

Lemma round_of_length (logs : list (list turn)) :
  round_of logs (Z.of_nat (length logs)) = None.
Proof.
  unfold round_of. destruct (Z.leb_spec 0 (Z.of_nat (length logs))); [|done].
  apply lookup_ge_None_2. lia.
Qed.

Lemma turns_client_calls (e r n : Z) (ts : list turn) :
  client_calls e (concat (turn_events r n <$> ts))
  = if decide (r = e) then concat (turn_calls r n <$> ts) else [].
Proof.
  unfold client_calls. rewrite omap_concat, <- list_fmap_compose.
  case_decide as Hr.
  - subst e. f_equal. apply list_fmap_ext. intros _ tn _. apply turn_client_calls.
  - apply concat_nils. intros _ tn _. simpl. apply omap_none.
    eapply Forall_impl; [apply turn_events_round|].
    intros ev Hev. apply client_call_round. rewrite Hev. congruence.
Qed.

Lemma resumed_nil (s : Machine) : resumed K s s [].
Proof.
  unfold resumed. simpl. rewrite !merge_rows_nil.
  split; [done|]. split.
  { exists []. rewrite app_nil_r. split; [done|].
    intros e. unfold round_of. by destruct (0 <=? e). }
  do 4 (split; [done|]). split.
  { intros e. unfold round_of. by destruct (0 <=? e). }
  intros r ts Hr. done.
Qed.

Lemma resumed_lengths (s s' : Machine) (logs : list (list turn)) :
  resumed K s s' logs →
  let j := Z.of_nat (length logs) in
  j ≤ Z.of_nat (length (soft_decisions (self s'))) ∧
  j ≤ Z.of_nat (length (train_accuracies (self s'))) ∧
  j ≤ Z.of_nat (length (test_accuracies (self s'))) ∧
  j ≤ Z.of_nat (length (ref_accuracies (self s'))).
Proof.
  intros (_ & _ & E1 & E2 & E3 & E4 & _). simpl.
  rewrite E1, E2, E3, E4, !merge_rows_length, !length_fmap. lia.
Qed.


Lemma prior_from_app_l (old : list (list Tensor)) (logs more : list (list turn))
    (r i : nat) (ts : list turn) :
  (r ≤ length logs)%nat →
  prior_from old (logs ++ more) r i ts = prior_from old logs r i ts.
Proof.
  intros Hr. destruct r as [|r']; [done|].
  unfold prior_from. by rewrite lookup_app_l by lia.
Qed.

(** One more round of the same call. *)
Lemma resumed_snoc (s s1 s' : Machine) (logs : list (list turn)) (ts : list turn) :
  let t1 := self s1 in
  let e := Z.of_nat (length logs) in
  resumed K s s1 logs →
  (λ tn, (t_idx tn, t_client tn)) <$> ts = clients t1 →
  static (self s') = static t1 →
  (∃ a da b db d1 d2,
     trace s' = trace s1 ++
       concat (turn_events e (num_local_epochs t1) <$> ts) ++
       [SetDescription e a da b db; WandbLog d1; WandbLog d2]) →
  soft_decisions (self s')
  = alter (λ row, row ++ (turn_soft_decision <$> ts)) (Z.to_nat e)
      (soft_decisions t1 ++ [[]]) →
  train_accuracies (self s')
  = alter (λ row, row ++ (t_train_acc <$> ts)) (Z.to_nat e)
      (train_accuracies t1 ++ [[]]) →
  test_accuracies (self s')
  = alter (λ row, row ++ (t_test_acc <$> ts)) (Z.to_nat e)
      (test_accuracies t1 ++ [[]]) →
  ref_accuracies (self s')
  = alter (λ row, row ++ (turn_ref_acc K t1 <$> ts)) (Z.to_nat e)
      (ref_accuracies t1 ++ [[]]) →
  trust_weights_round (self s') = <[e := slot_of K ts]> (trust_weights_round t1) →
  (∀ (i : nat) (tn : turn), ts !! i = Some tn →
      match t_calc tn with
      | None => e < pretraining_rounds t1
      | Some (prior, ret) =>
          pretraining_rounds t1 ≤ e ∧
          py_getitem
            (alter (λ row, row ++ take i (turn_soft_decision <$> ts)) (Z.to_nat e)
               (soft_decisions t1 ++ [[]])) (e - 1) = Ok prior
      end) →
  resumed K s s' (logs ++ [ts]).
Proof.
  intros t1 e (Hst & (evs & Htr & Hcalls) & Hsd & Hta & Hte & Hra & Htw & Hgated)
    Hcs Hst' (a & da & b & db & d1 & d2 & Htr') Hsd' Hta' Hte' Hra' Htw' Hgate.
  subst t1 e. rewrite Nat2Z.id in *.
  destruct (static_inv _ _ Hst) as (Hcl & _ & HP & Hn & _ & Hm).
  assert (Hrefs : turn_ref_acc K (self s1) <$> ts = turn_ref_acc K (self s) <$> ts).
  { apply list_fmap_ext. intros _ tn _. unfold turn_ref_acc. by rewrite Hm. }
  unfold resumed.
  split. { by rewrite Hst'. }
  split.
  { eexists. split.
    { rewrite Htr', Htr, <- app_assoc. reflexivity. }
    intros e'. unfold client_calls in *.
    rewrite !omap_app. fold (client_calls e' evs).
    fold (client_calls e'
            (concat (turn_events (Z.of_nat (length logs))
                       (num_local_epochs (self s1)) <$> ts))).
    rewrite turns_client_calls, round_of_snoc, Hn. simpl.
    unfold client_calls. rewrite Hcalls, app_nil_r.
    case_decide as He.
    - subst e'. by rewrite round_of_length.
    - by rewrite app_nil_r. }
  split.
  { rewrite Hsd', Hsd.
    rewrite <- (length_fmap (λ ts0 : list turn, turn_soft_decision <$> ts0) logs).
    by rewrite merge_rows_snoc, fmap_app. }
  split.
  { rewrite Hta', Hta.
    rewrite <- (length_fmap (λ ts0 : list turn, t_train_acc <$> ts0) logs).
    by rewrite merge_rows_snoc, fmap_app. }
  split.
  { rewrite Hte', Hte.
    rewrite <- (length_fmap (λ ts0 : list turn, t_test_acc <$> ts0) logs).
    by rewrite merge_rows_snoc, fmap_app. }
  split.
  { rewrite Hra', Hra, Hrefs.
    rewrite <- (length_fmap (λ ts0 : list turn, turn_ref_acc K (self s) <$> ts0) logs).
    by rewrite merge_rows_snoc, fmap_app. }
  split.
  { intros e'. rewrite Htw', round_of_snoc. case_decide as He.
    - subst e'. apply lookup_insert_eq.
    - rewrite lookup_insert_ne by done. apply Htw. }
  intros r ts' Hr.
  destruct (decide (r < length logs)%nat) as [Hlt|Hge].
  - rewrite lookup_app_l in Hr by done.
    destruct (Hgated r ts' Hr) as [Hcs' Hturns]. split; [done|].
    intros i tn Hi. specialize (Hturns i tn Hi).
    destruct (t_calc tn) as [[prior ret]|]; [|done].
    destruct Hturns as [? ->]. split; [done|].
    symmetry. apply prior_from_app_l. lia.
  - assert (r = length logs) as ->.
    { apply lookup_lt_Some in Hr. rewrite length_app in Hr. simpl in Hr. lia. }
    rewrite list_lookup_middle in Hr by done. injection Hr as <-.
    split. { by rewrite Hcs. }
    intros i tn Hi. specialize (Hgate i tn Hi).
    destruct (t_calc tn) as [[prior ret]|]; [|by rewrite <- HP].
    destruct Hgate as [Hge' Hprior]. split; [by rewrite <- HP|].
    rewrite Hsd in Hprior.
    rewrite <- (length_fmap (λ ts0 : list turn, turn_soft_decision <$> ts0) logs)
      in Hprior at 1.
    rewrite merge_rows_snoc in Hprior.
    destruct (length logs) as [|j'] eqn:Hj.
    + apply length_zero_iff_nil in Hj. subst logs.
      erewrite py_getitem_lookup in Hprior; cycle 1.
      * apply py_resolve_minus_one. rewrite merge_rows_length. simpl. lia.
      * rewrite merge_rows_length. simpl.
        replace (pred (length (soft_decisions (self s)) + 1))
          with (length (soft_decisions (self s))) by lia.
        rewrite merge_rows_lookup by (simpl; lia). reflexivity.
      * injection Hprior as <-. unfold prior_from.
        rewrite (lookup_ge_None_2 (soft_decisions (self s))) by lia.
        by destruct (soft_decisions (self s)).
    + destruct (lookup_lt_is_Some_2 logs j') as [ts0 Hts0]; [lia|].
      erewrite py_getitem_lookup in Hprior; cycle 1.
      * apply py_resolve_pred; [lia|].
        rewrite merge_rows_length, length_app, length_fmap. simpl. lia.
      * replace (Z.to_nat (Z.of_nat (S j') - 1)) with j' by lia.
        rewrite merge_rows_lookup
          by (rewrite length_app, length_fmap; simpl; lia).
        rewrite lookup_app_l by (rewrite length_fmap; lia).
        rewrite list_lookup_fmap, Hts0. reflexivity.
      * injection Hprior as <-. unfold prior_from.
        by rewrite lookup_app_l, Hts0 by lia.
Qed.

Lemma train_rounds_any (j : nat) (prev : Scalar * Scalar) (s : Machine) :
  ∃ logs s' prev',
    for_each_acc (py_range (Z.of_nat j)) (train_round K) prev s = Ok (prev', s') ∧
    length logs = j ∧ resumed K s s' logs.
Proof.
  induction j as [|j IH].
  - exists [], s, prev. split; [done|]. split; [done|]. apply resumed_nil.
  - destruct IH as (logs & s1 & prev1 & Hrun & Hlen & Hres).
    destruct (resumed_lengths _ _ _ Hres) as (L1 & L2 & L3 & L4).
    rewrite Hlen in L1, L2, L3, L4.
    destruct (train_round_any (Z.of_nat j) prev1 s1)
      as (ts & s' & prev' & Hround & Hcs & Hst & Htr & Hsd & Hta & Hte & Hra & Htw & Hgate);
      [lia|done..|].
    exists (logs ++ [ts]), s', prev'. split; [|split].
    + rewrite py_range_succ, for_each_acc_app, Hrun. simpl.
      unfold mbind, M_bind. by rewrite Hround.
    + rewrite length_app. simpl. lia.
    + eapply resumed_snoc; rewrite ?Hlen; eauto.
Qed.

(** [train] on any trainer. *)
Lemma train_any (G : Z) (s : Machine) :
  ∃ logs s',
    train K G s
    = Ok ((trust_weights_round (self s'), test_accuracies (self s'),
           ref_accuracies (self s')), s') ∧
    length logs = Z.to_nat G ∧ resumed K s s' logs.
Proof.
  destruct (train_rounds_any (Z.to_nat G) (scalar_zero K, scalar_zero K) s)
    as (logs & s' & prev' & Hrun & Hlen & Hres).
  exists logs, s'. split; [|done].
  unfold train, mbind, M_bind. rewrite py_range_to_nat, Hrun. done.
Qed.


(** X7.  [train] raises nothing of its own on any trainer, whatever its
    histories and trust weights hold (a trainer that was trained before,
    say): every round allocates the row and the slot it then indexes.  Each
    call adds one row per round to each of the four histories. *)
Theorem X7_train_returns_on_any_trainer (G : Z) (s : Machine) :
  ∃ h s',
    train K G s = Ok (h, s') ∧
    static (self s') = static (self s) ∧
    h = (trust_weights_round (self s'), test_accuracies (self s'),
         ref_accuracies (self s')) ∧
    length (soft_decisions (self s'))
    = (length (soft_decisions (self s)) + Z.to_nat G)%nat ∧
    length (train_accuracies (self s'))
    = (length (train_accuracies (self s)) + Z.to_nat G)%nat ∧
    length (test_accuracies (self s'))
    = (length (test_accuracies (self s)) + Z.to_nat G)%nat ∧
    length (ref_accuracies (self s'))
    = (length (ref_accuracies (self s)) + Z.to_nat G)%nat.
Proof.
  destruct (train_any G s) as (logs & s' & Hrun & Hlen & Hres).
  destruct Hres as (Hst & _ & E1 & E2 & E3 & E4 & _).
  eexists _, s'. split; [exact Hrun|]. split; [done|]. split; [done|].
  by rewrite E1, E2, E3, E4, !merge_rows_length, !length_fmap, Hlen.
Qed.

(** X8.  Round [e] of a call of [train] writes to the rows at index [e],
    not to the rows the call has allocated: on a trainer that already holds
    rows, what the clients return in round [e] is appended to the old rows
    [e] of the four histories, after the values of the earlier call. *)
Theorem X8_a_later_call_appends_to_the_old_rows (G : Z) (s : Machine) (e : Z) :
  0 ≤ e → e < G →
  let t := self s in
  let k := Z.to_nat e in
  ∃ h s' evs (ts : list turn),
    train K G s = Ok (h, s') ∧
    trace s' = trace s ++ evs ∧
    (λ tn, (t_idx tn, t_client tn)) <$> ts = clients t ∧
    client_calls e evs = concat (turn_calls e (num_local_epochs t) <$> ts) ∧
    soft_decisions (self s') !! k
    = Some (default [] (soft_decisions t !! k) ++ (turn_soft_decision <$> ts)) ∧
    train_accuracies (self s') !! k
    = Some (default [] (train_accuracies t !! k) ++ (t_train_acc <$> ts)) ∧
    test_accuracies (self s') !! k
    = Some (default [] (test_accuracies t !! k) ++ (t_test_acc <$> ts)) ∧
    ref_accuracies (self s') !! k
    = Some (default [] (ref_accuracies t !! k) ++ (turn_ref_acc K t <$> ts)).
Proof.
  intros H0 He t k. subst t k.
  destruct (train_any G s) as (logs & s' & Hrun & Hlen & Hres).
  destruct Hres as (_ & (evs & Htr & Hcalls) & E1 & E2 & E3 & E4 & _ & Hgated).
  destruct (logs_lookup logs G e Hlen H0 He) as [ts Hts].
  destruct (Hgated _ ts Hts) as [Hcs _].
  eexists _, s', evs, ts. split; [exact Hrun|]. split; [done|]. split; [done|].
  split.
  { rewrite Hcalls. unfold round_of.
    destruct (Z.leb_spec 0 e); [|lia]. by rewrite Hts. }
  apply lookup_lt_Some in Hts as Hlt.
  rewrite E1, E2, E3, E4.
  rewrite !merge_rows_lookup by (rewrite length_fmap; lia).
  rewrite !list_lookup_fmap, Hts. done.
Qed.

(** X9.  The rows at an index from [global_epochs] on are left as they
    were by a call of [train]: old rows are kept, and the rows the call
    itself has allocated there stay empty. *)
Theorem X9_rows_past_the_rounds_are_untouched (G : Z) (s : Machine) (i : nat) :
  (Z.to_nat G ≤ i)%nat →
  let t := self s in
  ∃ h s',
    train K G s = Ok (h, s') ∧
    ((i < length (soft_decisions t) + Z.to_nat G)%nat →
     soft_decisions (self s') !! i = Some (default [] (soft_decisions t !! i))) ∧
    ((i < length (train_accuracies t) + Z.to_nat G)%nat →
     train_accuracies (self s') !! i = Some (default [] (train_accuracies t !! i))) ∧
    ((i < length (test_accuracies t) + Z.to_nat G)%nat →
     test_accuracies (self s') !! i = Some (default [] (test_accuracies t !! i))) ∧
    ((i < length (ref_accuracies t) + Z.to_nat G)%nat →
     ref_accuracies (self s') !! i = Some (default [] (ref_accuracies t !! i))).
Proof.
  intros Hi t. subst t.
  destruct (train_any G s) as (logs & s' & Hrun & Hlen & Hres).
  destruct Hres as (_ & _ & E1 & E2 & E3 & E4 & _).
  eexists _, s'. split; [exact Hrun|].
  rewrite E1, E2, E3, E4.
  repeat split; intros Hlt;
    (rewrite merge_rows_lookup by (rewrite length_fmap; lia));
    (rewrite (lookup_ge_None_2 (_ <$> logs)) by (rewrite length_fmap; lia));
    simpl; by rewrite app_nil_r.
Qed.

(** X10.  A call of [train] overwrites the trust weights of the rounds it
    runs, whatever the slot held, with the empty list or the stack of the
    weights of this call, and leaves every other key of the dictionary as it
    was. *)
Theorem X10_trust_weights_are_overwritten (G : Z) (s : Machine) (e : Z) :
  ∃ h s' evs,
    train K G s = Ok (h, s') ∧
    trace s' = trace s ++ evs ∧
    (¬ (0 ≤ e < G) →
     trust_weights_round (self s') !! e = trust_weights_round (self s) !! e) ∧
    (0 ≤ e < G →
     ∃ ts : list turn,
       client_calls e evs
       = concat (turn_calls e (num_local_epochs (self s)) <$> ts) ∧
       trust_weights_round (self s') !! e
       = Some (match omap t_weight ts with
               | [] => TWList []
               | ws => TWStacked (torch_stack K ws)
               end)).
Proof.
  destruct (train_any G s) as (logs & s' & Hrun & Hlen & Hres).
  destruct Hres as (_ & (evs & Htr & Hcalls) & _ & _ & _ & _ & Htw & _).
  eexists _, s', evs. split; [exact Hrun|]. split; [done|].
  rewrite Htw, Hcalls. unfold round_of. split.
  - intros He. destruct (Z.leb_spec 0 e); [|done].
    rewrite lookup_ge_None_2; [done|lia].
  - intros [H0 He]. destruct (logs_lookup logs G e Hlen H0 He) as [ts Hts].
    destruct (Z.leb_spec 0 e); [|lia]. rewrite Hts. by exists ts.
Qed.



(** ** What wandb is given *)

Lemma pretty_N_char_digit (x : N) : is_digit (pretty_N_char x) = true.
Proof. unfold pretty_N_char. by repeat case_match. Qed.

Lemma pretty_N_go_digits (x : N) (s : string) :
  is_digits s → is_digits (pretty_N_go x s).
Proof.
  revert s. induction (N.lt_wf_0 x) as [x _ IH]; intros s Hs.
  assert (x = 0 ∨ 0 < x)%N as [->|Hx] by lia.
  - by rewrite pretty_N_go_0.
  - rewrite pretty_N_go_step by done. apply IH.
    + by apply N.div_lt.
    + split; [apply pretty_N_char_digit|done].
Qed.

Lemma pretty_N_go_nonempty (x : N) (s : string) :
  s ≠ "" → pretty_N_go x s ≠ "".
Proof.
  revert s. induction (N.lt_wf_0 x) as [x _ IH]; intros s Hs.
  assert (x = 0 ∨ 0 < x)%N as [->|Hx] by lia.
  - by rewrite pretty_N_go_0.
  - rewrite pretty_N_go_step by done. apply IH; [by apply N.div_lt|done].
Qed.

Lemma pretty_nat_digits (i : nat) : is_digits (pretty i).
Proof.
  unfold pretty, pretty_nat, pretty, pretty_N. case_decide.
  - by split.
  - by apply pretty_N_go_digits.
Qed.

Lemma pretty_nat_nonempty (i : nat) : pretty i ≠ "".
Proof.
  unfold pretty, pretty_nat, pretty, pretty_N. case_decide as Hi; [done|].
  rewrite pretty_N_go_step by lia. by apply pretty_N_go_nonempty.
Qed.

(** Two strings of digits followed by something that starts with no digit
    are equal only part by part. *)
Lemma digits_app_inj (a b : string) (c c' : Ascii.ascii) (x y : string) :
  is_digits a → is_digits b → is_digit c = false → is_digit c' = false →
  a +:+ String c x = b +:+ String c' y → a = b ∧ String c x = String c' y.
Proof.
  revert b. induction a as [|ca a IH]; intros [|cb b] Ha Hb Hc Hc' Heq;
    simpl in *.
  - done.
  - injection Heq as -> _. destruct Hb as [Hb _]. congruence.
  - injection Heq as -> _. destruct Ha as [Ha _]. congruence.
  - injection Heq as -> Heq. destruct Ha as [_ Ha], Hb as [_ Hb].
    destruct (IH b Ha Hb Hc Hc' Heq) as [-> ?]. done.
Qed.

Lemma wandb_key_inj (i j : nat) (x y : string) :
  pretty i +:+ String "_"%char x = pretty j +:+ String "_"%char y → i = j ∧ x = y.
Proof.
  intros Heq.
  destruct (digits_app_inj (pretty i) (pretty j) "_"%char "_"%char x y
              (pretty_nat_digits i) (pretty_nat_digits j)
              eq_refl eq_refl Heq) as [Hij [= ->]].
  split; [|done]. by apply (inj pretty).
Qed.

Lemma wandb_key_not_global (i : nat) (x : string) :
  pretty i +:+ x ≠ "global_epoch".
Proof.
  pose proof (pretty_nat_digits i) as Hd. pose proof (pretty_nat_nonempty i) as Hne.
  destruct (pretty i) as [|c r]; [done|].
  simpl. intros [= -> _]. by destruct Hd as [Hd _].
Qed.


#[local] Abbreviation wandb_value := (@wandb_value Scalar).

Lemma wandb_enumerate_snoc (suffix : string) (l : list Scalar) (a : Scalar)
    (d : gmap string wandb_value) :
  wandb_enumerate suffix (l ++ [a]) d
  = <[pretty (length l) +:+ suffix := WScalar a]> (wandb_enumerate suffix l d).
Proof.
  unfold wandb_enumerate. rewrite imap_app, foldl_app. simpl.
  by rewrite Nat.add_0_r.
Qed.

(** [enumerate] files the value at position [i] under the key made of
    [i]. *)
Lemma wandb_enumerate_lookup (x : string) (l : list Scalar)
    (d : gmap string wandb_value) (i : nat) :
  wandb_enumerate (String "_" x) l d !! (pretty i +:+ String "_" x)
  = match l !! i with
    | Some a => Some (WScalar a)
    | None => d !! (pretty i +:+ String "_" x)
    end.
Proof.
  induction l as [|a l IH] using rev_ind; [done|].
  rewrite wandb_enumerate_snoc.
  destruct (decide (i = length l)) as [->|Hne].
  - by rewrite lookup_insert_eq, list_lookup_middle.
  - rewrite lookup_insert_ne.
    + rewrite IH. destruct (decide (i < length l)%nat).
      * by rewrite lookup_app_l.
      * rewrite (lookup_ge_None_2 l) by lia.
        rewrite (lookup_ge_None_2 (l ++ [a])); [done|].
        rewrite length_app. simpl. lia.
    + intros Heq. apply wandb_key_inj in Heq as [Heq _]. lia.
Qed.

Lemma wandb_enumerate_lookup_other (suffix key : string) (l : list Scalar)
    (d : gmap string wandb_value) :
  (∀ i : nat, key ≠ pretty i +:+ suffix) →
  wandb_enumerate suffix l d !! key = d !! key.
Proof.
  intros Hkey. induction l as [|a l IH] using rev_ind; [done|].
  rewrite wandb_enumerate_snoc, lookup_insert_ne; [done|].
  intros Heq. by apply (Hkey (length l)).
Qed.

Lemma concat_pairs_lookup {A B} (f g : nat → A → B) (l : list A) (r : nat) :
  concat (imap (λ r x, [f r x; g r x]) l) !! (2 * r)%nat = f r <$> l !! r ∧
  concat (imap (λ r x, [f r x; g r x]) l) !! (2 * r + 1)%nat = g r <$> l !! r.
Proof.
  revert f g r. induction l as [|a l IH]; intros f g r; [done|].
  rewrite imap_cons. destruct r as [|r]; [done|].
  replace (2 * S r)%nat with (S (S (2 * r))) by lia. simpl.
  apply (IH (f ∘ S) (g ∘ S) r).
Qed.

Lemma concat_pairs_length {A B} (f g : nat → A → B) (l : list A) :
  length (concat (imap (λ r x, [f r x; g r x]) l)) = (2 * length l)%nat.
Proof.
  revert f g. induction l as [|a l IH]; intros f g; [done|].
  rewrite imap_cons. cbn [concat app length].
  replace (length (concat (imap ((λ r x, [f r x; g r x]) ∘ S) l)))
    with (2 * length l)%nat by (symmetry; apply (IH (f ∘ S) (g ∘ S))).
  lia.
Qed.

Lemma read_wandb_logs (t : Trainer) (logs : list (list turn)) :
  wandb_logs (concat (imap (round_events K t logs) logs))
  = concat (imap (λ r ts,
      [<["global_test_accuracy" := WScalar (mean_test K ts)]>
         (<["global_ref_accuracy" := WScalar (mean_ref K t ts)]> ∅);
       wandb_enumerate "_ref_accuracy" (turn_ref_acc K t <$> ts)
         (wandb_enumerate "_test_accuracy" (t_test_acc <$> ts)
           (wandb_enumerate "_train_accuracy" (t_train_acc <$> ts)
             (<["global_epoch" := WInt (Z.of_nat r)]> ∅)))]) logs).
Proof.
  unfold wandb_logs. rewrite omap_concat, fmap_imap. f_equal.
  apply imap_ext. intros r ts _. simpl.
  rewrite omap_round_events. simpl.
  rewrite concat_nils; [done|]. intros _ tn _.
  apply omap_none. eapply Forall_impl; [apply turn_events_calls|].
  by intros ev [cl ->].
Qed.

(** X12.  Every round hands wandb two records, in this order: the means of
    the round's test and reference accuracies, and a record that holds the
    round under ['global_epoch'] and, for every position [i] of a client in
    the order of iteration (the position, not the client's key in
    [clients]), its train, test and reference accuracy of the round under
    ['{i}_train_accuracy'], ['{i}_test_accuracy'] and ['{i}_ref_accuracy'];
    no such key exists for a position past the last client. *)
Theorem X12_wandb_records
    (cs : list (Z * Client)) (rl : Loader) (ss : SampleSizes)
    (P n : Z) (m : MetricName) (G : Z) (w : World) (e : Z) :
  m = acc ∨ m = bacc → 0 ≤ e → e < G →
  ∃ h s' d1 d2 train_row test_row ref_row,
    run K cs rl ss P n m G w = Ok (h, s') ∧
    length (wandb_logs (trace s')) = (2 * Z.to_nat G)%nat ∧
    wandb_logs (trace s') !! (2 * Z.to_nat e)%nat = Some d1 ∧
    wandb_logs (trace s') !! (2 * Z.to_nat e + 1)%nat = Some d2 ∧
    train_accuracies (self s') !! Z.to_nat e = Some train_row ∧
    test_accuracies (self s') !! Z.to_nat e = Some test_row ∧
    ref_accuracies (self s') !! Z.to_nat e = Some ref_row ∧
    d1 = <["global_test_accuracy" := WScalar (np_mean K test_row)]>
           (<["global_ref_accuracy" := WScalar (np_mean K ref_row)]> ∅) ∧
    d2 !! "global_epoch" = Some (WInt e) ∧
    ∀ i : nat,
      d2 !! (pretty i +:+ "_train_accuracy") = WScalar <$> train_row !! i ∧
      d2 !! (pretty i +:+ "_test_accuracy") = WScalar <$> test_row !! i ∧
      d2 !! (pretty i +:+ "_ref_accuracy") = WScalar <$> ref_row !! i.
Proof.
  intros Hm H0 He.
  destruct (run_logged K cs rl ss P n m G w Hm)
    as (t & logs & s' & Ht & Hrun & Hlen & Htr & Hlog).
  destruct Hlog as (_ & _ & _ & Hta & Hte & Hra & _ & _). simpl in *.
  destruct (logs_lookup logs G e Hlen H0 He) as [ts Hts].
  eexists _, s', _, _, _, _, _. split; [exact Hrun|].
  rewrite Htr, read_wandb_logs, Hta, Hte, Hra, !list_lookup_fmap, Hts. simpl.
  match goal with |- context [imap ?F logs] =>
    pose proof (concat_pairs_lookup (λ r ts, hd ∅ (F r ts))
                  (λ r ts, hd ∅ (tl (F r ts))) logs (Z.to_nat e)) as [H1 H2]
  end.
  simpl in H1, H2. rewrite H1, H2, Hts. simpl. clear H1 H2.
  split.
  { rewrite concat_pairs_length, Hlen. lia. }
  do 6 (split; [reflexivity|]).
  rewrite Z2Nat.id by done.
  split.
  { rewrite !wandb_enumerate_lookup_other; [apply lookup_insert_eq|..];
      intros i Heq; by apply (wandb_key_not_global i _ (eq_sym Heq)). }
  assert (Hglobal : ∀ (i : nat) (x : string) (d : gmap string wandb_value),
            <["global_epoch" := WInt e]> d !! (pretty i +:+ x) = d !! (pretty i +:+ x)).
  { intros i x d. apply lookup_insert_ne.
    intros Heq. by apply (wandb_key_not_global i x (eq_sym Heq)). }
  intros i. split; [|split].
  - rewrite (wandb_enumerate_lookup_other "_ref_accuracy");
      [|intros j Heq; by apply wandb_key_inj in Heq as [_ [=]]].
    rewrite (wandb_enumerate_lookup_other "_test_accuracy");
      [|intros j Heq; by apply wandb_key_inj in Heq as [_ [=]]].
    rewrite (wandb_enumerate_lookup "train_accuracy"), Hglobal.
    by destruct (_ !! i).
  - rewrite (wandb_enumerate_lookup_other "_ref_accuracy");
      [|intros j Heq; by apply wandb_key_inj in Heq as [_ [=]]].
    rewrite (wandb_enumerate_lookup "test_accuracy").
    rewrite (wandb_enumerate_lookup_other "_train_accuracy");
      [|intros j Heq; by apply wandb_key_inj in Heq as [_ [=]]].
    rewrite Hglobal. by destruct (_ !! i).
  - rewrite (wandb_enumerate_lookup "ref_accuracy").
    rewrite (wandb_enumerate_lookup_other "_test_accuracy");
      [|intros j Heq; by apply wandb_key_inj in Heq as [_ [=]]].
    rewrite (wandb_enumerate_lookup_other "_train_accuracy");
      [|intros j Heq; by apply wandb_key_inj in Heq as [_ [=]]].
    rewrite Hglobal. by destruct (_ !! i).
Qed.


(** X13.  The reference accuracy a round records for a client is the
    score of the metric chosen at construction, true labels first:
    [accuracy_score(ref_y, argmax(soft_decision))] under [MetricName.acc] and
    [balanced_accuracy_score(ref_y, argmax(soft_decision))] under
    [MetricName.bacc], on the labels and the soft decision that the client's
    [infer_on_refdata] returned in that very round. *)
Theorem X13_reference_accuracy_is_scored_with_the_chosen_metric
    (cs : list (Z * Client)) (rl : Loader) (ss : SampleSizes)
    (P n : Z) (m : MetricName) (G : Z) (w : World) (e : Z) :
  m = acc ∨ m = bacc → 0 ≤ e → e < G →
  ∃ tw te re s',
    run K cs rl ss P n m G w = Ok ((tw, te, re), s') ∧
    re !! Z.to_nat e
    = Some ((λ x, match m with
                  | bacc => balanced_accuracy_score K x.2.2 (torch_argmax K x.2.1)
                  | _ => accuracy_score K x.2.2 (torch_argmax K x.2.1)
                  end) <$> inferences e (trace s')).
Proof.
  intros Hm H0 He.
  destruct (run_logged K cs rl ss P n m G w Hm)
    as (t & logs & s' & Ht & Hrun & Hlen & Htr & Hlog).
  destruct Hlog as (_ & _ & _ & _ & _ & Hra & _ & _). simpl in *.
  assert (∃ r : nat, e = Z.of_nat r) as [r ->].
  { exists (Z.to_nat e). lia. }
  destruct (logs_lookup logs G (Z.of_nat r) Hlen) as [ts Hts]; [lia|lia|].
  rewrite Nat2Z.id in *.
  eexists _, _, _, s'. split; [exact Hrun|].
  rewrite Htr, Hra, (read_inferences K t logs _ ts Hts).
  rewrite list_lookup_fmap, Hts, <- list_fmap_compose. simpl. f_equal.
  apply list_fmap_ext. intros _ tn _. unfold turn_ref_acc. simpl.
  unfold Trainer_init in Ht. destruct Hm as [-> | ->]; by injection Ht as <-.
Qed.

End Rounds.

(** * The toy federation, round by round *)

Module ToyRounds.

Import Toy.


Lemma X2_witness :
  ∃ h s',
    run K two_clients tt tt 1 2 acc 2 0 = Ok (h, s') ∧
    Z.of_nat (length (soft_decisions (self s'))) = 2 ∧
    Z.of_nat (length (train_accuracies (self s'))) = 2 ∧
    ∀ e : Z, 0 ≤ e → e < 2 →
      soft_decisions (self s') !! Z.to_nat e
      = Some ((λ x, x.2.1) <$> inferences e (trace s')) ∧
      train_accuracies (self s') !! Z.to_nat e
      = Some ((λ x, x.2) <$> tests e mode_train (trace s')) ∧
      (λ x, x.1) <$> inferences e (trace s') = two_clients ∧
      (λ x, x.1) <$> tests e mode_train (trace s') = two_clients.
Proof.
  apply (X2_soft_decisions_and_train_accuracies K two_clients tt tt 1 2 acc 2 0);
    [left; reflexivity | lia].
Defined.

Lemma X3_witness :
  ∃ tw te re s',
    run K [] tt tt 0 1 acc 2 0 = Ok ((tw, te, re), s') ∧
    client_calls 1 (trace s') = [] ∧
    te !! Z.to_nat 1 = Some [] ∧ re !! Z.to_nat 1 = Some [] ∧
    tw !! 1 = Some (TWList []) ∧
    descriptions 1 (trace s')
    = [(np_mean K [], scalar_sub K (np_mean K []) (np_mean K []),
        np_mean K [], scalar_sub K (np_mean K []) (np_mean K []))].
Proof.
  apply (X3_no_clients K tt tt 0 1 acc 2 0 1); [left; reflexivity | lia | lia].
Defined.


Lemma X5_witness :
  ∃ h s',
    run K two_clients tt tt 1 2 acc 2 0 = Ok (h, s') ∧
    StronglySorted Z.le (omap event_round (trace s')).
Proof.
  apply (X5_rounds_in_order K two_clients tt tt 1 2 acc 2 0); left; reflexivity.
Defined.

Lemma X6_witness :
  global_epoch K 0
    (mkMachine (mkTrainer two_clients tt tt 1 2 acc (accuracy_score K)
                  [] [] [] [] ∅) 0 [])
  = Raise IndexError.
Proof.
  apply (X6_global_epoch_needs_the_rows_of_train K two_clients tt tt 1 2 acc
           (mkTrainer two_clients tt tt 1 2 acc (accuracy_score K) [] [] [] [] ∅)
           0 0).
  reflexivity.
Defined.

Lemma X8_witness :
  let t := self trained in
  let k := Z.to_nat 0 in
  ∃ h s' evs (ts : list turn),
    train K 2 trained = Ok (h, s') ∧
    trace s' = trace trained ++ evs ∧
    (λ tn, (t_idx tn, t_client tn)) <$> ts = clients t ∧
    client_calls 0 evs = concat (turn_calls 0 (num_local_epochs t) <$> ts) ∧
    soft_decisions (self s') !! k
    = Some (default [] (soft_decisions t !! k) ++ (turn_soft_decision <$> ts)) ∧
    train_accuracies (self s') !! k
    = Some (default [] (train_accuracies t !! k) ++ (t_train_acc <$> ts)) ∧
    test_accuracies (self s') !! k
    = Some (default [] (test_accuracies t !! k) ++ (t_test_acc <$> ts)) ∧
    ref_accuracies (self s') !! k
    = Some (default [] (ref_accuracies t !! k) ++ (turn_ref_acc K t <$> ts)).
Proof.
  apply (X8_a_later_call_appends_to_the_old_rows K 2 trained 0); lia.
Defined.

Lemma X9_witness :
  let t := self trained in
  ∃ h s',
    train K 1 trained = Ok (h, s') ∧
    ((1 < length (soft_decisions t) + Z.to_nat 1)%nat →
     soft_decisions (self s') !! 1%nat = Some (default [] (soft_decisions t !! 1%nat))) ∧
    ((1 < length (train_accuracies t) + Z.to_nat 1)%nat →
     train_accuracies (self s') !! 1%nat
     = Some (default [] (train_accuracies t !! 1%nat))) ∧
    ((1 < length (test_accuracies t) + Z.to_nat 1)%nat →
     test_accuracies (self s') !! 1%nat
     = Some (default [] (test_accuracies t !! 1%nat))) ∧
    ((1 < length (ref_accuracies t) + Z.to_nat 1)%nat →
     ref_accuracies (self s') !! 1%nat
     = Some (default [] (ref_accuracies t !! 1%nat))).
Proof.
  apply (X9_rows_past_the_rounds_are_untouched K 1 trained 1). simpl. lia.
Defined.


Lemma X12_witness :
  ∃ h s' d1 d2 train_row test_row ref_row,
    run K two_clients tt tt 1 2 acc 2 0 = Ok (h, s') ∧
    length (wandb_logs (trace s')) = (2 * Z.to_nat 2)%nat ∧
    wandb_logs (trace s') !! (2 * Z.to_nat 1)%nat = Some d1 ∧
    wandb_logs (trace s') !! (2 * Z.to_nat 1 + 1)%nat = Some d2 ∧
    train_accuracies (self s') !! Z.to_nat 1 = Some train_row ∧
    test_accuracies (self s') !! Z.to_nat 1 = Some test_row ∧
    ref_accuracies (self s') !! Z.to_nat 1 = Some ref_row ∧
    d1 = <["global_test_accuracy" := WScalar (np_mean K test_row)]>
           (<["global_ref_accuracy" := WScalar (np_mean K ref_row)]> ∅) ∧
    d2 !! "global_epoch" = Some (WInt 1) ∧
    ∀ i : nat,
      d2 !! (pretty i +:+ "_train_accuracy") = WScalar <$> train_row !! i ∧
      d2 !! (pretty i +:+ "_test_accuracy") = WScalar <$> test_row !! i ∧
      d2 !! (pretty i +:+ "_ref_accuracy") = WScalar <$> ref_row !! i.
Proof.
  apply (X12_wandb_records K two_clients tt tt 1 2 acc 2 0 1);
    [left; reflexivity | lia | lia].
Defined.

Lemma X13_witness :
  ∃ tw te re s',
    run K two_clients tt tt 1 2 bacc 2 0 = Ok ((tw, te, re), s') ∧
    re !! Z.to_nat 1
    = Some ((λ x, match bacc with
                  | bacc => balanced_accuracy_score K x.2.2 (torch_argmax K x.2.1)
                  | _ => accuracy_score K x.2.2 (torch_argmax K x.2.1)
                  end) <$> inferences 1 (trace s')).
Proof.
  apply (X13_reference_accuracy_is_scored_with_the_chosen_metric
           K two_clients tt tt 1 2 bacc 2 0 1);
    [right; reflexivity | lia | lia].
Defined.

(** The trained toy machine, trained once more for two rounds: the values
    of the new rounds land in rows 0 and 1, row 0 after the old values, and
    the row at index 2, allocated by the second round, stays empty. *)
Example toy_trained_again :
  (λ s', (test_accuracies (self s'), trust_weights_round (self s') !! 0))
    <$> (snd <$> match train K 2 trained with Ok x => Some x | Raise _ => None end)
  = Some ([[3; 4; 9; 13]; [13; 17]; []], Some (TWStacked [7; 0; 0; 9; 0; 0])).
Proof. by vm_compute. Qed.

End ToyRounds.
